(** * OAuth2 authorization-code server (src/oauth2/server.js)

    A shallow embedding of the request handlers of [server.js] and the
    properties of the grant life cycle.

    The handlers are written in continuation-passing style, exactly as the
    Node.js source is: every store operation takes the callback to run on
    success and, where the source passes one, the fallback to run on failure.
    Handler bodies are values of the type [Prog]; two interpreters give them
    meaning: [run] executes one handler from start to end on a world, and
    [turn]/[exec] execute several handlers interleaved at their store
    operations, which is where the Node.js event loop can switch between
    requests. *)

From Stdlib Require Import ZArith Ascii String List Bool Lia.
Set Warnings "-register-all".
From stdpp Require Import base option list strings gmap fin_maps.

Open Scope Z_scope.
Open Scope string_scope.

(** ** JavaScript values used by the handlers *)

Module JS.

(** [s.split(sep)] for a one-character separator: the pieces of [s] between
    the occurrences of [sep]; the empty string gives one empty piece. *)
Fixpoint split (sep : ascii) (s : string) : list string :=
  match s with
  | EmptyString => [EmptyString]
  | String c s' =>
      if Ascii.eqb c sep then EmptyString :: split sep s'
      else match split sep s' with
           | [] => [String c EmptyString]
           | piece :: pieces => String c piece :: pieces
           end
  end.

(** [s.slice(n)]: [s] without its first [n] characters. *)
Fixpoint slice (n : nat) (s : string) : string :=
  match n, s with
  | O, _ => s
  | S _, EmptyString => EmptyString
  | S n', String _ s' => slice n' s'
  end.

(** Number of occurrences of a character. *)
Fixpoint occurrences (c : ascii) (s : string) : nat :=
  match s with
  | EmptyString => O
  | String c' s' => (if Ascii.eqb c' c then 1 else 0) + occurrences c s'
  end.

(** A property read from an object holds a string or is [undefined]
    ([None]).  [undefined] and the empty string are falsy. *)
Definition truthy (v : option string) : bool :=
  match v with
  | Some s => negb (String.eqb s "")
  | None => false
  end.

(** [a != b] on strings. *)
Definition neq (a b : string) : bool := negb (String.eqb a b).

(** Members every plain object inherits from [Object.prototype]; a property
    read [o[k]] finds them when [o] has no own property [k], and each of
    them is a function or an object, hence truthy. *)
Definition Object_prototype : list string :=
  [ "constructor"; "toString"; "toLocaleString"; "valueOf";
    "hasOwnProperty"; "isPrototypeOf"; "propertyIsEnumerable";
    "__proto__"; "__defineGetter__"; "__defineSetter__";
    "__lookupGetter__"; "__lookupSetter__" ].

(** Truth value of [o[k]] for an object literal [o] whose own properties
    are numbers. *)
Definition truthy_member (o : gmap string Z) (k : string) : bool :=
  match o !! k with
  | Some n => negb (Z.eqb n 0)
  | None => existsb (String.eqb k) Object_prototype
  end.

(** [a != b] where either side may be [undefined]. *)
Definition ne (a b : option string) : bool :=
  match a, b with
  | Some x, Some y => JS.neq x y
  | None, None => false
  | _, _ => true
  end.

(** The string held by a property known to be set. *)
Definition str (v : option string) : string :=
  match v with
  | Some s => s
  | None => ""
  end.

End JS.

(** ** Data model *)

(** A JavaScript [Error] value, as the store hands it to a fallback. *)
Record Error := { message : string; stack : string }.

Module Client.
Record t := { id : string; secret : string; redirect_uri : string; name : string }.
End Client.

Module Grant.
Record t := { id : string; client_id : string; time : Z; user_id : string; code : string }.
End Grant.

(** The object [send_grant] passes to [new R.Grant(...)]: the store assigns
    the id when the grant is saved. *)
Record GrantFields :=
  { new_client_id : string; new_time : Z; new_user_id : string; new_code : string }.

Record Token := { access_token : string }.

(** Request parameters: the object built from a query string or a form. *)
Abbreviation Params := (gmap string string).

(** The client context handed to the login flow and back to [send_grant]. *)
Record ClientData :=
  { cd_client_id : string; cd_client_name : string;
    cd_redirect_uri : string; cd_state : option string }.

(** Argument [data] of [valid_grant]. *)
Record GrantData := { gd_code : string; gd_client_id : string }.

(** What [req.form.complete] reports: an error or the parsed fields. *)
Inductive FormResult :=
| FormError (err : Error)
| FormFields (fields : Params).

Record Request :=
  { url : string;
    form : option FormResult;             (* [req.form], undefined without a form body *)
    authorization : option string }.      (* [req.headers['authorization']] *)

(** ** Observable actions *)

Inductive json :=
| JString (s : string)
| JObject (members : list (string * json)).

Inductive body :=
| Text (s : string)
| JSON (j : json).                        (* [JSON.stringify(j)] *)

Inductive event :=
| writeHead (status : Z) (headers : list (string * string))
| end_ (b : body)
| redirect (target : string)              (* [tools.redirect(res, target)] *)
| server_error (err : Error)              (* [tools.server_error(res, err)] *)
| console_log (line : string)
| login (ctx : ClientData)                (* [authentication.login(req, res, ctx)] *)
| db_client_get (ids : string)
| db_grant_get (ids : string)
| db_grant_save (fields : GrantFields)
| db_grant_delete (ids : string).

(** ** Handler programs

    [Ret] is only used by an observer that wants to know which continuation a
    function invoked; a handler ends in [Stop], with nothing left to run.
    A store operation carries its callback and its fallback. *)
Inductive Prog (A : Type) : Type :=
| Ret (a : A)
| Stop
| Emit (e : event) (k : Prog A)
| Date_now (k : Z -> Prog A)
| randomString (n : nat) (k : string -> Prog A)
| Client_get (ids : string)
    (callback : option Client.t -> Prog A) (fallback : Error -> Prog A)
| Grant_get (ids : string)
    (callback : option Grant.t -> Prog A) (fallback : Error -> Prog A)
| Grant_save (fields : GrantFields)
    (callback : Grant.t -> Prog A) (fallback : Error -> Prog A)
| Grant_delete_ (grant : Grant.t)
    (callback : Prog A) (fallback : Error -> Prog A).

Arguments Ret {A} a.
Arguments Stop {A}.
Arguments Emit {A} e k.
Arguments Date_now {A} k.
Arguments randomString {A} n k.
Arguments Client_get {A} ids callback fallback.
Arguments Grant_get {A} ids callback fallback.
Arguments Grant_save {A} fields callback fallback.
Arguments Grant_delete_ {A} grant callback fallback.

(** Statements of a handler body run in sequence. *)
Notation "e ;;; k" := (Emit e k) (at level 60, right associativity).

(** ** The world a handler runs in *)

(** The shared, mutable store behind [RFactory()]. *)
Record Store := { clients : gmap string Client.t; grants : gmap string Grant.t }.

(** What the environment decides for one turn of a handler: the clock, the
    random source, the id the store gives to the next saved grant, and
    whether a store operation fails. *)
Record Env :=
  { now : Z;
    random : nat -> string;
    fresh_id : string;
    client_get_failure : option Error;
    grant_get_failure : option Error;
    grant_save_failure : option Error;
    grant_delete_failure : option Error }.

Definition set_grants (gs : gmap string Grant.t) (st : Store) : Store :=
  {| clients := clients st; grants := gs |}.

Definition saved (env : Env) (f : GrantFields) : Grant.t :=
  {| Grant.id := fresh_id env; Grant.client_id := new_client_id f;
     Grant.time := new_time f; Grant.user_id := new_user_id f;
     Grant.code := new_code f |}.

(** Outcome of running a handler: the value handed to [Ret] if any, the
    store afterwards and the actions in the order they happened. *)
Record Outcome (A : Type) := { value : option A; store : Store; trace : list event }.
Arguments value {A} o.
Arguments store {A} o.
Arguments trace {A} o.

Definition emitted {A} (e : event) (o : Outcome A) : Outcome A :=
  {| value := value o; store := store o; trace := e :: trace o |}.

Definition halted {A} (st : Store) : Outcome A :=
  {| value := None; store := st; trace := [] |}.

(** Where the source passes no fallback to a store operation, a failure of
    that operation runs nothing more in the handler. *)
Definition no_fallback {A} : Error -> Prog A := fun _ => Stop.

(** One handler run from start to end, every callback called as soon as its
    operation is done. *)
Fixpoint run {A} (env : Env) (p : Prog A) (st : Store) : Outcome A :=
  match p with
  | Ret a => {| value := Some a; store := st; trace := [] |}
  | Stop => halted st
  | Emit e k => emitted e (run env k st)
  | Date_now k => run env (k (now env)) st
  | randomString n k => run env (k (random env n)) st
  | Client_get ids callback fallback =>
      emitted (db_client_get ids)
        match client_get_failure env with
        | Some err => run env (fallback err) st
        | None => run env (callback (clients st !! ids)) st
        end
  | Grant_get ids callback fallback =>
      emitted (db_grant_get ids)
        match grant_get_failure env with
        | Some err => run env (fallback err) st
        | None => run env (callback (grants st !! ids)) st
        end
  | Grant_save fields callback fallback =>
      emitted (db_grant_save fields)
        match grant_save_failure env with
        | Some err => run env (fallback err) st
        | None =>
            let g := saved env fields in
            run env (callback g) (set_grants (<[Grant.id g := g]> (grants st)) st)
        end
  | Grant_delete_ grant callback fallback =>
      emitted (db_grant_delete (Grant.id grant))
        match grant_delete_failure env with
        | Some err => run env (fallback err) st
        | None => run env callback (set_grants (delete (Grant.id grant) (grants st)) st)
        end
  end.

(** ** What the handlers take from outside this file

    [oauth2.ERRORS] (module [./common]), Node's [querystring.stringify] and
    the query member of [URL.parse(url, true)].  The handler tests that
    member for truthiness: [Some] stands for an object, which is truthy even
    when empty, [None] for a falsy value.  Node's [URL.parse] called with
    [true] gives an object for every URL, the empty one when the URL has no
    query string. *)
Class Platform :=
  { ERRORS : string -> string -> string;
    querystring_stringify : list (string * string) -> string;
    URL_parse_query : string -> option Params }.

(** ** server.js *)

Section Responses.
Context {A : Type} {P : Platform}.

Definition oauth_error (type id : string) : Prog A :=
  writeHead 400 [("Content-Type", "text/html")] ;;;
  end_ (JSON (JObject [("error", JObject
    [("type", JString "OAuthException");
     ("message", JString (id +:+ ": " +:+ ERRORS type id))])])) ;;;
  Stop.

Definition unknown_error (err : Error) : Prog A :=
  console_log (message err) ;;;
  console_log (stack err) ;;;
  server_error err ;;;
  Stop.

End Responses.

Module PARAMS.
Module eua.
Definition mandatory : list string := ["client_id"; "response_type"; "redirect_uri"].
Definition optional : list string := ["state"; "scope"].
Definition response_types : gmap string Z :=
  <["token" := 1]> (<["code" := 1]> (<["code_and_token" := 1]> ∅)).
Definition all : list string := mandatory ++ optional.
End eua.
Module oat.
Definition mandatory : list string := ["grant_type"; "client_id"; "code"; "redirect_uri"].
Definition optional : list string := ["scope"; "client_secret"].
End oat.
End PARAMS.

Definition create_access_token (user_id client_id : string) : string :=
  user_id +:+ "," +:+ client_id.

Section Handlers.
Context {A : Type} {P : Platform}.

Definition send_grant (user_id : string) (client_data : ClientData) : Prog A :=
  Date_now (fun time =>
  randomString 128 (fun code =>
  Grant_save
    {| new_client_id := cd_client_id client_data; new_time := time;
       new_user_id := user_id; new_code := code |}
    (fun grant =>
       let qs := [("code", Grant.id grant +:+ "|" +:+ Grant.code grant)] in
       let qs := if JS.truthy (cd_state client_data)
                 then (qs ++ [("state", JS.str (cd_state client_data))])%list
                 else qs in
       let qs := querystring_stringify qs in
       redirect (cd_redirect_uri client_data +:+ "?" +:+ qs) ;;; Stop)
    (fun err => unknown_error err))).

Definition valid_grant (data : GrantData)
    (callback : option Token -> Prog A) (fallback : Error -> Prog A) : Prog A :=
  let id_code := JS.split "|" (gd_code data) in
  if negb (Nat.eqb (length id_code) 2) then callback None else
  Grant_get (nth 0 id_code "") (fun grant =>
    Date_now (fun now =>
    let minute_ago := now - 60000 in
    match grant with
    | None => callback None
    | Some grant =>
        if Z.ltb (Grant.time grant) minute_ago
           || JS.neq (Grant.client_id grant) (gd_client_id data)
           || JS.neq (Grant.code grant) (nth 1 id_code "")
        then callback None
        else
          (* Delete the grant so that it cannot be used anymore: *)
          Grant_delete_ grant
            (let token :=
               {| access_token :=
                    create_access_token (Grant.user_id grant) (Grant.client_id grant) |} in
             callback (Some token))
            fallback
    end))
    no_fallback.

(** [JSON.stringify(token)] is applied to this object. *)
Definition token_json (token : Token) : json :=
  JObject [("access_token", JString (access_token token))].

(** The part of [token_endpoint] that starts at [R.Client.get]; [params]
    holds the resolved [client_secret]. *)
Definition token_endpoint_client (params : Params) : Prog A :=
  Client_get (JS.str (params !! "client_id")) (fun client =>
    match client with
    | None => oauth_error "oat" "invalid_client"
    | Some client =>
        if JS.ne (Some (Client.secret client)) (params !! "client_secret")
        then oauth_error "oat" "invalid_client"
        else if JS.ne (Some (Client.redirect_uri client)) (params !! "redirect_uri")
        then oauth_error "oat" "invalid_grant"
        else
          valid_grant
            {| gd_code := JS.str (params !! "code"); gd_client_id := Client.id client |}
            (fun token =>
               match token with
               | None => oauth_error "oat" "invalid_grant"
               | Some token =>
                   writeHead 200 [("Content-Type", "application/json");
                                  ("Cache-Control", "no-store")] ;;;
                   end_ (JSON (token_json token)) ;;;
                   Stop
               end)
            (fun err => unknown_error err)
    end)
    (fun err => unknown_error err).

Definition token_endpoint (req : Request) : Prog A :=
  match form req with
  | None => oauth_error "oat" "invalid_request"
  | Some (FormError err) => oauth_error "oat" "invalid_request"
  | Some (FormFields params) =>
      let error :=
        existsb (fun param => negb (JS.truthy (params !! param))) PARAMS.oat.mandatory in
      if error then oauth_error "oat" "invalid_request" else
      if JS.ne (params !! "grant_type") (Some "authorization_code")
      then oauth_error "oat" "unsupported_grant_type" else
      let secret := authorization req in
      if JS.truthy secret then
        if JS.truthy (params !! "client_secret")
        then oauth_error "oat" "invalid_request"
        else token_endpoint_client
               (<["client_secret" := JS.slice 6 (JS.str secret)]> params)
      else if negb (JS.truthy (params !! "client_secret"))
      then oauth_error "oat" "invalid_request"
      else token_endpoint_client params
  end.

(** The part of [authorize] that starts at [R.Client.get]. *)
Definition authorize_client (params : Params) : Prog A :=
  Client_get (JS.str (params !! "client_id")) (fun client =>
    match client with
    | None => oauth_error "eua" "invalid_client"
    | Some client =>
        if JS.ne (Some (Client.redirect_uri client)) (params !! "redirect_uri")
        then oauth_error "eua" "redirect_uri_mismatch"
        else
          login {| cd_client_id := Client.id client;
                   cd_client_name := Client.name client;
                   cd_redirect_uri := JS.str (params !! "redirect_uri");
                   cd_state := params !! "state" |} ;;;
          Stop
    end)
    (fun err => unknown_error err).

Definition not_implemented_text : string :=
  "Only code request type supported for now " +:+
  "(schema 1.4.1 in oauth2 spec draft 10).".

Definition authorize (params : Params) : Prog A :=
  let error :=
    existsb (fun param => negb (JS.truthy (params !! param))) PARAMS.eua.mandatory in
  if error then oauth_error "eua" "invalid_request" else
  if negb (JS.truthy_member PARAMS.eua.response_types (JS.str (params !! "response_type")))
  then oauth_error "eua" "unsupported_response_type" else
  if JS.ne (params !! "response_type") (Some "code") then
    (* the branch has no [return]: the statements after it run as well *)
    writeHead 501 [("Content-Type", "text/html")] ;;;
    end_ (Text not_implemented_text) ;;;
    authorize_client params
  else authorize_client params.

Definition authorize_endpoint (req : Request) : Prog A :=
  match URL_parse_query (url req) with
  | Some params => authorize params
  | None =>
      match form req with
      | None => oauth_error "eua" "invalid_request"
      | Some (FormError err) => oauth_error "eua" "invalid_request"
      | Some (FormFields fields) => authorize fields
      end
  end.

End Handlers.

(** ** Interleaved execution

    Node.js runs the synchronous part of a handler without interruption and
    switches to another request only while a store operation is pending.
    A [turn] completes the pending operation of one handler and runs its
    continuation up to the next store operation. *)

Fixpoint sync {A} (env : Env) (p : Prog A) : Prog A * list event :=
  match p with
  | Emit e k => let '(p', t) := sync env k in (p', e :: t)
  | Date_now k => sync env (k (now env))
  | randomString n k => sync env (k (random env n))
  | _ => (p, [])
  end.

Definition complete {A} (env : Env) (p : Prog A) (st : Store)
  : Prog A * Store * list event :=
  match p with
  | Client_get ids callback fallback =>
      (match client_get_failure env with
       | Some err => fallback err
       | None => callback (clients st !! ids)
       end, st, [db_client_get ids])
  | Grant_get ids callback fallback =>
      (match grant_get_failure env with
       | Some err => fallback err
       | None => callback (grants st !! ids)
       end, st, [db_grant_get ids])
  | Grant_save fields callback fallback =>
      match grant_save_failure env with
      | Some err => (fallback err, st, [db_grant_save fields])
      | None =>
          let g := saved env fields in
          (callback g, set_grants (<[Grant.id g := g]> (grants st)) st,
           [db_grant_save fields])
      end
  | Grant_delete_ grant callback fallback =>
      match grant_delete_failure env with
      | Some err => (fallback err, st, [db_grant_delete (Grant.id grant)])
      | None =>
          (callback, set_grants (delete (Grant.id grant) (grants st)) st,
           [db_grant_delete (Grant.id grant)])
      end
  | _ => (p, st, [])
  end.

Definition turn {A} (env : Env) (p : Prog A) (st : Store)
  : Prog A * Store * list event :=
  let '(p1, st1, t1) := complete env p st in
  let '(p2, t2) := sync env p1 in
  (p2, st1, (t1 ++ t2)%list).

(** A handler between two turns: what is left of it and what it did so far. *)
Record Task (A : Type) := { pending : Prog A; done_so_far : list event }.
Arguments pending {A} t.
Arguments done_so_far {A} t.

(** A request arrives: its handler runs up to its first store operation. *)
Definition spawn {A} (env : Env) (p : Prog A) : Task A :=
  let '(p', t) := sync env p in {| pending := p'; done_so_far := t |}.

(** The event loop gives the next turn to handler [i]. *)
Definition schedule1 {A} (i : nat) (env : Env) (pool : list (Task A)) (st : Store)
  : list (Task A) * Store :=
  match pool !! i with
  | Some task =>
      let '(p, st', t) := turn env (pending task) st in
      (<[i := {| pending := p; done_so_far := (done_so_far task ++ t)%list |}]> pool, st')
  | None => (pool, st)
  end.

Fixpoint exec {A} (sched : list (nat * Env)) (pool : list (Task A)) (st : Store)
  : list (Task A) * Store :=
  match sched with
  | [] => (pool, st)
  | (i, env) :: sched' =>
      let '(pool', st') := schedule1 i env pool st in exec sched' pool' st'
  end.

(** One handler given every turn, at most [fuel] of them. *)
Fixpoint drive {A} (fuel : nat) (env : Env) (p : Prog A) (st : Store) : Outcome A :=
  match p with
  | Ret a => {| value := Some a; store := st; trace := [] |}
  | Stop => halted st
  | _ =>
      match fuel with
      | O => halted st
      | S fuel' =>
          let '(p', st', t) := turn env p st in
          let o := drive fuel' env p' st' in
          {| value := value o; store := store o; trace := (t ++ trace o)%list |}
      end
  end.

(** ** Observing [valid_grant] *)

(** Which continuation [valid_grant] invoked, and with what. *)
Inductive Redeemed :=
| Called (token : option Token)
| Failed (err : Error).

Definition redeem (data : GrantData) : Prog Redeemed :=
  valid_grant data (fun token => Ret (Called token)) (fun err => Ret (Failed err)).

(** ** A platform and a world to evaluate the handlers on *)

Module Sample.

(** [querystring.escape]: letters, digits and [-_.!~*'()] are kept, every
    other byte becomes [%XX] with upper-case hexadecimal digits. *)
Definition unreserved (c : ascii) : bool :=
  let n := N_of_ascii c in
  (N.leb 48 n && N.leb n 57) || (N.leb 65 n && N.leb n 90) || (N.leb 97 n && N.leb n 122)
  || existsb (Ascii.eqb c) (list_ascii_of_string "-_.!~*'()").

Definition hex_digit (n : N) : ascii :=
  nth (N.to_nat n) (list_ascii_of_string "0123456789ABCDEF") "0"%char.

Fixpoint escape (s : string) : string :=
  match s with
  | EmptyString => EmptyString
  | String c s' =>
      if unreserved c then String c (escape s')
      else
        let n := N_of_ascii c in
        String "%" (String (hex_digit (N.div n 16))
                      (String (hex_digit (N.modulo n 16)) (escape s')))
  end.

(** [querystring.stringify] for an object whose values are strings. *)
Fixpoint stringify (qs : list (string * string)) : string :=
  match qs with
  | [] => ""
  | [(k, v)] => escape k +:+ "=" +:+ escape v
  | (k, v) :: qs' => escape k +:+ "=" +:+ escape v +:+ "&" +:+ stringify qs'
  end.

Definition hex_value (c : ascii) : option N :=
  let n := N_of_ascii c in
  if N.leb 48 n && N.leb n 57 then Some (n - 48)%N
  else if N.leb 65 n && N.leb n 70 then Some (n - 55)%N
  else if N.leb 97 n && N.leb n 102 then Some (n - 87)%N
  else None.

(** [querystring.unescape]: [+] is a space and [%XX] a byte; a [%] that is
    not followed by two hexadecimal digits is kept. *)
Fixpoint unescape (s : string) : string :=
  match s with
  | EmptyString => EmptyString
  | String c rest =>
      if Ascii.eqb c "+" then String " " (unescape rest)
      else if Ascii.eqb c "%" then
        match rest with
        | String h (String l rest') =>
            match hex_value h, hex_value l with
            | Some a, Some b => String (ascii_of_N (16 * a + b)) (unescape rest')
            | _, _ => String c (unescape rest)
            end
        | _ => String c (unescape rest)
        end
      else String c (unescape rest)
  end.

(** The part of [s] before the first [c], and the part after it if [c]
    occurs. *)
Fixpoint cut (c : ascii) (s : string) : string * option string :=
  match s with
  | EmptyString => (EmptyString, None)
  | String a s' =>
      if Ascii.eqb a c then (EmptyString, Some s')
      else let '(before, after) := cut c s' in (String a before, after)
  end.

(** One [key=value] piece of a query string; a piece without [=] has the
    empty value. *)
Definition field (kv : string) : string * string :=
  let '(k, v) := cut "=" kv in (unescape k, unescape (JS.str v)).

(** [querystring.parse] for a query string without repeated keys: the
    pieces between [&], the empty ones skipped. *)
Definition parse (q : string) : Params :=
  list_to_map
    (map field (List.filter (fun kv => negb (String.eqb kv "")) (JS.split "&" q))).

(** [URL.parse(url, true).query]: the parsed query string, the part of the
    URL between the first [?] and the fragment; the empty object for a URL
    without a query string.  It is an object in every case. *)
Definition parse_query (u : string) : option Params :=
  match (cut "?" (cut "#" u).1).2 with
  | Some q => Some (parse q)
  | None => Some ∅
  end.

Definition platform : Platform :=
  {| ERRORS := fun type id => "(" +:+ type +:+ ") " +:+ id;
     querystring_stringify := stringify;
     URL_parse_query := parse_query |}.

Definition boom : Error := {| message := "connection lost"; stack := "at db" |}.

Definition env (t : Z) : Env :=
  {| now := t; random := fun _ => "abc"; fresh_id := "g1";
     client_get_failure := None; grant_get_failure := None;
     grant_save_failure := None; grant_delete_failure := None |}.

Definition env_delete_fails (t : Z) : Env :=
  {| now := t; random := fun _ => "abc"; fresh_id := "g1";
     client_get_failure := None; grant_get_failure := None;
     grant_save_failure := None; grant_delete_failure := Some boom |}.

Definition env_save_fails (t : Z) : Env :=
  {| now := t; random := fun _ => "abc"; fresh_id := "g1";
     client_get_failure := None; grant_get_failure := None;
     grant_save_failure := Some boom; grant_delete_failure := None |}.

Definition C1 : Client.t :=
  {| Client.id := "C1"; Client.secret := "s1";
     Client.redirect_uri := "https://c1/cb"; Client.name := "client one" |}.

Definition g1 : Grant.t :=
  {| Grant.id := "g1"; Grant.client_id := "C1"; Grant.time := 1000;
     Grant.user_id := "U1"; Grant.code := "abc" |}.

Definition empty_store : Store := {| clients := {["C1" := C1]}; grants := ∅ |}.

Definition store1 : Store := {| clients := {["C1" := C1]}; grants := {["g1" := g1]} |}.

Definition data1 : GrantData := {| gd_code := "g1|abc"; gd_client_id := "C1" |}.

Definition oat_params : Params :=
  list_to_map [("grant_type", "authorization_code"); ("client_id", "C1");
               ("code", "g1|abc"); ("redirect_uri", "https://c1/cb")].

Definition token_request : Request :=
  {| url := "/oauth2/token";
     form := Some (FormFields (<["client_secret" := "s1"]> oat_params));
     authorization := None |}.

Definition eua_params (response_type : string) : Params :=
  list_to_map [("client_id", "C1"); ("response_type", response_type);
               ("redirect_uri", "https://c1/cb"); ("state", "xyz")].

Definition ctx1 : ClientData :=
  {| cd_client_id := "C1"; cd_client_name := "client one";
     cd_redirect_uri := "https://c1/cb"; cd_state := Some "xyz" |}.

Definition token_response : list event :=
  [ writeHead 200 [("Content-Type", "application/json"); ("Cache-Control", "no-store")];
    end_ (JSON (JObject [("access_token", JString "U1,C1")])) ].

Definition token_request_both : Request :=
  {| url := "/oauth2/token";
     form := Some (FormFields (<["client_secret" := "s1"]> oat_params));
     authorization := Some "Basic s1" |}.

Definition authorize_post : Request :=
  {| url := "/oauth2/authorize";
     form := Some (FormFields (eua_params "code"));
     authorization := None |}.

End Sample.

(** ** The conditions of a redemption *)

(** The window the code accepts: it rejects when [grant.time < Date.now() - 60000]. *)
Definition fresh (now : Z) (g : Grant.t) : Prop := now - Grant.time g <= 60000.

(** The window as the specification words it: [now - issued_at < 60s]. *)
Definition fresh_strict (now : Z) (g : Grant.t) : Prop := now - Grant.time g < 60000.

(** The presented code splits into exactly [id] and [code], the store holds
    grant [g] under [id], [g] is inside the window, was issued to the
    redeeming client and carries the presented [code]. *)
Definition redeemable (window : Z -> Grant.t -> Prop)
    (st : Store) (now : Z) (data : GrantData) (g : Grant.t) : Prop :=
  exists id code : string,
    JS.split "|" (gd_code data) = [id; code] /\
    grants st !! id = Some g /\
    window now g /\
    Grant.client_id g = gd_client_id data /\
    Grant.code g = code.

Definition token_of (g : Grant.t) : Token :=
  {| access_token := create_access_token (Grant.user_id g) (Grant.client_id g) |}.

(** No store operation fails in this turn. *)
Definition store_works (env : Env) : Prop :=
  client_get_failure env = None /\ grant_get_failure env = None /\
  grant_save_failure env = None /\ grant_delete_failure env = None.

(** What [oauth_error(res, type, id)] does to the response. *)
Definition oauth_error_events {P : Platform} (type id : string) : list event :=
  [ writeHead 400 [("Content-Type", "text/html")];
    end_ (JSON (JObject [("error", JObject
      [("type", JString "OAuthException");
       ("message", JString (id +:+ ": " +:+ ERRORS type id))])])) ].

(** A validity check of [valid_grant] is evaluated and fails: the arity of
    the split, or one of the tests on the looked-up grant. *)
Definition check_fails (env : Env) (st : Store) (data : GrantData) : Prop :=
  length (JS.split "|" (gd_code data)) <> 2%nat \/
  exists id code : string,
    JS.split "|" (gd_code data) = [id; code] /\
    grant_get_failure env = None /\
    (grants st !! id = None \/
     exists g, grants st !! id = Some g /\
       (Grant.time g < now env - 60000 \/
        Grant.client_id g <> gd_client_id data \/
        Grant.code g <> code)).

(** The token request has passed the client checks of [token_endpoint]:
    the client lookup worked and found [c], whose secret and redirect_uri
    are the ones of the request. *)
Definition authenticated (env : Env) (st : Store) (params : Params) (c : Client.t) : Prop :=
  client_get_failure env = None /\
  clients st !! JS.str (params !! "client_id") = Some c /\
  JS.ne (Some (Client.secret c)) (params !! "client_secret") = false /\
  JS.ne (Some (Client.redirect_uri c)) (params !! "redirect_uri") = false.

(** The [data] argument [token_endpoint] gives to [valid_grant]. *)
Definition redeem_data (params : Params) (c : Client.t) : GrantData :=
  {| gd_code := JS.str (params !! "code"); gd_client_id := Client.id c |}.


(** The token request has passed the first two steps of [token_endpoint]:
    the form was parsed into [params], every mandatory parameter is set and
    the grant type is the supported one. *)
Definition passes_schema (req : Request) (params : Params) : Prop :=
  form req = Some (FormFields params) /\
  existsb (fun param => negb (JS.truthy (params !! param))) PARAMS.oat.mandatory = false /\
  params !! "grant_type" = Some "authorization_code".

(** The grant [send_grant] asks the store to save. *)
Definition new_grant (env : Env) (user_id : string) (client_data : ClientData) : GrantFields :=
  {| new_client_id := cd_client_id client_data; new_time := now env;
     new_user_id := user_id; new_code := random env 128 |}.

(** The query parameters of the redirect for a saved grant [g]. *)
Definition redirect_query (g : Grant.t) (client_data : ClientData) : list (string * string) :=
  ("code", Grant.id g +:+ "|" +:+ Grant.code g)
  :: match cd_state client_data with
     | Some s => if String.eqb s "" then [] else [("state", s)]
     | None => []
     end.

(** The three response types named in [PARAMS.eua.response_types]. *)
Definition recognized (response_type : string) : Prop :=
  response_type = "token" \/ response_type = "code" \/ response_type = "code_and_token".

(** Every mandatory parameter of an authorization request is set. *)
Definition eua_complete (params : Params) : Prop :=
  existsb (fun param => negb (JS.truthy (params !! param))) PARAMS.eua.mandatory = false.

(** What the not-implemented branch of [authorize] writes. *)
Definition not_implemented_events : list event :=
  [ writeHead 501 [("Content-Type", "text/html")]; end_ (Text not_implemented_text) ].

(** The store keeps every grant under its own id. *)
Definition store_ok (st : Store) : Prop :=
  forall k g, grants st !! k = Some g -> Grant.id g = k.

(** A handler that got a token out of [valid_grant]. *)
Definition got_token (task : Task Redeemed) : Prop :=
  exists token, pending task = Ret (Called (Some token)).

Module Race.

Definition env : Env := Sample.env 1000.

(** Two redemptions of the same authorization code arrive. *)
Definition attempts : list (Task Redeemed) :=
  [ spawn env (redeem Sample.data1); spawn env (redeem Sample.data1) ].

(** Both lookups complete before either delete. *)
Definition interleaved : list (nat * Env) :=
  [ (0%nat, env); (1%nat, env); (0%nat, env); (1%nat, env) ].

(** The first redemption completes before the second one starts. *)
Definition one_by_one : list (nat * Env) :=
  [ (0%nat, env); (0%nat, env); (1%nat, env); (1%nat, env) ].

(** The same race between two whole token requests. *)
Definition requests : list (Task unit) :=
  [ spawn env (token_endpoint (P := Sample.platform) Sample.token_request);
    spawn env (token_endpoint (P := Sample.platform) Sample.token_request) ].

Definition interleaved_requests : list (nat * Env) :=
  [ (0%nat, env); (1%nat, env); (0%nat, env); (1%nat, env); (0%nat, env); (1%nat, env) ].

End Race.

(** An outcome with more actions in front. *)
Definition prefixed {A} (t : list event) (o : Outcome A) : Outcome A :=
  {| value := value o; store := store o; trace := (t ++ trace o)%list |}.

(** ** The routes of [connector]

    [connector] fills the table [routes] and hands it to
    [tools.get_connector_from_str_routes]; the table is what is modelled. *)

(** The functions a route can name; [authentication.process_login] lives in
    another module. *)
Inductive Handler :=
| to_authorize_endpoint
| to_process_login
| to_token_endpoint.

Record Config :=
  { authorize_url : string; process_login_url : string; token_url : string }.

Record Routes := { GET : gmap string Handler; POST : gmap string Handler }.

Module connector.

(** The assignments of the source, in their order: the chained assignment
    writes [routes.POST] before [routes.GET], and a later assignment to the
    same key replaces the earlier one. *)
Definition routes (config : Config) : Routes :=
  let GET0 : gmap string Handler := ∅ in
  let POST0 : gmap string Handler := ∅ in
  let POST1 := <[authorize_url config := to_authorize_endpoint]> POST0 in
  let GET1 := <[authorize_url config := to_authorize_endpoint]> GET0 in
  let POST2 := <[process_login_url config := to_process_login]> POST1 in
  let POST3 := <[token_url config := to_token_endpoint]> POST2 in
  {| GET := GET1; POST := POST3 |}.

End connector.

(** ** What a handler does to the response *)

(** Store operations, as opposed to what is written, logged or delegated. *)
Definition is_db (e : event) : bool :=
  match e with
  | db_client_get _ | db_grant_get _ | db_grant_save _ | db_grant_delete _ => true
  | _ => false
  end.

(** The actions of a trace that are not store operations. *)
Definition responses (t : list event) : list event :=
  List.filter (fun e => negb (is_db e)) t.

(** The store operations of a trace. *)
Definition store_operations (t : list event) : list event := List.filter is_db t.

(** What [unknown_error(res, err)] does. *)
Definition unknown_error_events (err : Error) : list event :=
  [ console_log (message err); console_log (stack err); server_error err ].

(** The success response of [token_endpoint]. *)
Definition token_events (token : Token) : list event :=
  [ writeHead 200 [("Content-Type", "application/json"); ("Cache-Control", "no-store")];
    end_ (JSON (token_json token)) ].

(** The error ids [token_endpoint] reports. *)
Definition oat_error_ids : list string :=
  [ "invalid_request"; "unsupported_grant_type"; "invalid_client"; "invalid_grant" ].

(** The error ids [authorize] reports. *)
Definition eua_error_ids : list string :=
  [ "invalid_request"; "unsupported_response_type"; "invalid_client";
    "redirect_uri_mismatch" ].

(** One answer of the token endpoint: an error of its vocabulary, the token,
    or the report of a store error. *)
Definition oat_answer {P : Platform} (t : list event) : Prop :=
  (exists id, In id oat_error_ids /\ t = oauth_error_events "oat" id)
  \/ (exists token, t = token_events token)
  \/ (exists err, t = unknown_error_events err).

(** One outcome of [authorize] after its checks: an error of its vocabulary,
    the hand-over to the login flow, or the report of a store error. *)
Definition eua_answer {P : Platform} (t : list event) : Prop :=
  (exists id, In id eua_error_ids /\ t = oauth_error_events "eua" id)
  \/ (exists ctx, t = [login ctx])
  \/ (exists err, t = unknown_error_events err).

(** The parameters of a token request after the client secret was resolved. *)
Definition resolved (req : Request) (params : Params) : Params :=
  if JS.truthy (authorization req)
  then <["client_secret" := JS.slice 6 (JS.str (authorization req))]> params
  else params.

(** The secret is given once: by the header alone or by the form alone. *)
Definition secret_once (req : Request) (params : Params) : Prop :=
  JS.truthy (authorization req) = negb (JS.truthy (params !! "client_secret")).

(** The context [authorize] hands to the login flow for client [c]. *)
Definition login_context (params : Params) (c : Client.t) : ClientData :=
  {| cd_client_id := Client.id c; cd_client_name := Client.name c;
     cd_redirect_uri := JS.str (params !! "redirect_uri");
     cd_state := params !! "state" |}.

(** The authorization code [send_grant] hands out in this turn. *)
Definition issued_code (env : Env) : string :=
  fresh_id env +:+ "|" +:+ random env 128.

(** The parameters [authorize] reads. *)
Definition eua_read : list string := ["client_id"; "response_type"; "redirect_uri"; "state"].

(** The parameters [token_endpoint] reads. *)
Definition oat_read : list string :=
  ["grant_type"; "client_id"; "code"; "redirect_uri"; "client_secret"].

(** A request like [req] with another parsed form. *)
Definition with_fields (req : Request) (fields : Params) : Request :=
  {| url := url req; form := Some (FormFields fields); authorization := authorization req |}.

(** ** More sample requests *)

Module Cases.

(** The secret in the header only. *)
Definition token_request_header : Request :=
  {| url := "/oauth2/token";
     form := Some (FormFields Sample.oat_params);
     authorization := Some "Basic s1" |}.

(** A header that is shorter than the scheme prefix. *)
Definition token_request_short_header : Request :=
  {| url := "/oauth2/token";
     form := Some (FormFields Sample.oat_params);
     authorization := Some "Basic" |}.

(** No parsed form at all. *)
Definition token_request_no_form : Request :=
  {| url := "/oauth2/token"; form := None; authorization := None |}.

(** A token request of an unregistered client. *)
Definition token_request_stranger : Request :=
  {| url := "/oauth2/token";
     form := Some (FormFields
                     (<["client_id" := "C9"]> (<["client_secret" := "s1"]> Sample.oat_params)));
     authorization := None |}.

(** A query string without [redirect_uri], and a complete form. *)
Definition authorize_mixed : Request :=
  {| url := "/oauth2/authorize?client_id=C1&response_type=code";
     form := Some (FormFields (Sample.eua_params "code"));
     authorization := None |}.

(** A complete authorization request in the query string. *)
Definition authorize_get : Request :=
  {| url := "/oauth2/authorize?client_id=C1&response_type=code"
            +:+ "&redirect_uri=https%3A%2F%2Fc1%2Fcb&state=xyz";
     form := None;
     authorization := None |}.

(** The store gives out an id that contains the delimiter. *)
Definition env_bar_in_id : Env :=
  {| now := 1000; random := fun _ => "abc"; fresh_id := "g|1";
     client_get_failure := None; grant_get_failure := None;
     grant_save_failure := None; grant_delete_failure := None |}.

(** A grant type the server does not support. *)
Definition token_request_password : Request :=
  {| url := "/oauth2/token";
     form := Some (FormFields
                     (<["grant_type" := "password"]>
                        (<["client_secret" := "s1"]> Sample.oat_params)));
     authorization := None |}.

(** A store without any client. *)
Definition no_clients : Store := {| clients := ∅; grants := ∅ |}.

(** The parameters of a token request with the secret in the form. *)
Definition params1 : Params := <["client_secret" := "s1"]> Sample.oat_params.

End Cases.

(** * Properties *)

Example split_two : JS.split "|" "g1|abc" = ["g1"; "abc"].
Proof. reflexivity. Qed.

Example split_none : JS.split "|" "g1abc" = ["g1abc"].
Proof. reflexivity. Qed.

Example split_three : JS.split "|" "a|b|c" = ["a"; "b"; "c"].
Proof. reflexivity. Qed.

Example split_empty : JS.split "|" "" = [""].
Proof. reflexivity. Qed.

Example slice_basic : JS.slice 6 "Basic s3cret" = "s3cret".
Proof. reflexivity. Qed.

Example escape_delimiter : Sample.escape "g1|abc" = "g1%7Cabc".
Proof. reflexivity. Qed.

Example unescape_redirect_uri : Sample.unescape "https%3A%2F%2Fc1%2Fcb" = "https://c1/cb".
Proof. reflexivity. Qed.

Example parse_query_without_query : Sample.parse_query "/oauth2/authorize" = Some ∅.
Proof. reflexivity. Qed.

Example parse_query_with_query :
  Sample.parse_query (url Cases.authorize_get) = Some (Sample.eua_params "code").
Proof. vm_compute. reflexivity. Qed.

(** The scenario of the specification: issue a code, redeem it at once. *)
Example scenario_issue :
  run (Sample.env 1000) (send_grant (A := unit) (P := Sample.platform) "U1" Sample.ctx1)
    Sample.empty_store
  = {| value := None; store := Sample.store1;
       trace := [db_grant_save {| new_client_id := "C1"; new_time := 1000;
                                  new_user_id := "U1"; new_code := "abc" |};
                 redirect "https://c1/cb?code=g1%7Cabc&state=xyz"] |}.
Proof. vm_compute. reflexivity. Qed.

(** ** Strings *)

Lemma split_nonempty c s : JS.split c s <> [].
Proof.
  destruct s as [|a s]; simpl; [done|].
  destruct (Ascii.eqb a c); [done|]. destruct (JS.split c s); done.
Qed.

Lemma split_length c s : length (JS.split c s) = S (JS.occurrences c s).
Proof.
  induction s as [|a s IH]; simpl; [done|].
  destruct (Ascii.eqb a c); simpl; [by rewrite IH|].
  pose proof (split_nonempty c s). destruct (JS.split c s); [done|]. simpl in *. done.
Qed.

Lemma neq_false a b : JS.neq a b = false <-> a = b.
Proof. unfold JS.neq. rewrite negb_false_iff. apply String.eqb_eq. Qed.

(** ** Redeeming a grant: [valid_grant] and the token endpoint *)

Section Redemption.
Context {P : Platform}.

Lemma run_oauth_error {A} env type id st :
  run env (oauth_error (A := A) type id) st
  = {| value := None; store := st; trace := oauth_error_events type id |}.
Proof. reflexivity. Qed.

Lemma run_valid_grant {A} env data (callback : option Token -> Prog A) fallback st :
  run env (valid_grant data callback fallback) st =
  match JS.split "|" (gd_code data) with
  | [id; code] =>
     emitted (db_grant_get id)
       match grant_get_failure env with
       | Some _ => halted st
       | None =>
         match grants st !! id with
         | None => run env (callback None) st
         | Some g =>
            if Z.ltb (Grant.time g) (now env - 60000)
               || JS.neq (Grant.client_id g) (gd_client_id data)
               || JS.neq (Grant.code g) code
            then run env (callback None) st
            else emitted (db_grant_delete (Grant.id g))
              match grant_delete_failure env with
              | Some err => run env (fallback err) st
              | None => run env (callback (Some (token_of g)))
                          (set_grants (delete (Grant.id g) (grants st)) st)
              end
         end
       end
  | _ => run env (callback None) st
  end.
Proof.
  unfold valid_grant.
  destruct (JS.split "|" (gd_code data)) as [|id [|code [|x l]]]; simpl; try done.
  destruct (grant_get_failure env); [done|].
  destruct (grants st !! id) as [g|]; [|done].
  destruct (_ || _ || _); done.
Qed.

Lemma checks_pass_iff now g data code :
  Z.ltb (Grant.time g) (now - 60000)
    || JS.neq (Grant.client_id g) (gd_client_id data)
    || JS.neq (Grant.code g) code = false
  <-> fresh now g /\ Grant.client_id g = gd_client_id data /\ Grant.code g = code.
Proof.
  rewrite !orb_false_iff, !neq_false, Z.ltb_ge. unfold fresh. intuition lia.
Qed.

Lemma redeemable_split window st now data g id code :
  JS.split "|" (gd_code data) = [id; code] ->
  redeemable window st now data g
  <-> grants st !! id = Some g /\ window now g /\
      Grant.client_id g = gd_client_id data /\ Grant.code g = code.
Proof.
  intros Hs. unfold redeemable. rewrite Hs. split.
  - intros (i & c & Heq & H). by simplify_eq.
  - intros H. by exists id, code.
Qed.

Lemma redeemable_arity window st now data g :
  redeemable window st now data g -> length (JS.split "|" (gd_code data)) = 2%nat.
Proof. intros (i & c & -> & _). reflexivity. Qed.

Lemma run_redeem env data st :
  run env (redeem data) st =
  match JS.split "|" (gd_code data) with
  | [id; code] =>
     emitted (db_grant_get id)
       match grant_get_failure env with
       | Some _ => halted st
       | None =>
         match grants st !! id with
         | None => {| value := Some (Called None); store := st; trace := [] |}
         | Some g =>
            if Z.ltb (Grant.time g) (now env - 60000)
               || JS.neq (Grant.client_id g) (gd_client_id data)
               || JS.neq (Grant.code g) code
            then {| value := Some (Called None); store := st; trace := [] |}
            else emitted (db_grant_delete (Grant.id g))
              match grant_delete_failure env with
              | Some err => {| value := Some (Failed err); store := st; trace := [] |}
              | None => {| value := Some (Called (Some (token_of g)));
                           store := set_grants (delete (Grant.id g) (grants st)) st;
                           trace := [] |}
              end
         end
       end
  | _ => {| value := Some (Called None); store := st; trace := [] |}
  end.
Proof.
  unfold redeem. rewrite run_valid_grant.
  destruct (JS.split "|" (gd_code data)) as [|id [|code [|x l]]]; reflexivity.
Qed.

(** A token comes out exactly when both store operations work and the five
    conditions hold, the window being the inclusive one. *)
Lemma redeem_token_iff env data st token :
  value (run env (redeem data) st) = Some (Called (Some token))
  <-> grant_get_failure env = None /\ grant_delete_failure env = None /\
      exists g, redeemable fresh st (now env) data g /\ token = token_of g.
Proof.
  rewrite run_redeem.
  destruct (JS.split "|" (gd_code data)) as [|id [|code [|x l]]] eqn:Hs; simpl.
  1,2,4: split; [done|]; intros (_ & _ & g & Hr%redeemable_arity & _);
         by rewrite Hs in Hr.
  pose proof (fun g => redeemable_split fresh st (now env) data g id code Hs) as Hiff.
  destruct (grant_get_failure env) as [e|]; simpl; [split; [done|by intros [? _]]|].
  destruct (grants st !! id) as [g|] eqn:Hg; simpl.
  2: { split; [done|]. intros (_ & _ & g & Hr%Hiff & _). destruct Hr; congruence. }
  destruct (_ || _ || _) eqn:Hc; simpl.
  - split; [done|]. intros (_ & _ & g' & (Hl & Hr)%Hiff & _).
    assert (g' = g) as -> by congruence.
    apply checks_pass_iff in Hr. congruence.
  - apply checks_pass_iff in Hc.
    destruct (grant_delete_failure env) as [e|]; simpl.
    { split; [done|]. by intros (_ & ? & _). }
    split.
    + intros [= <-]. do 2 (split; [done|]). exists g. split; [|done]. apply Hiff. tauto.
    + intros (_ & _ & g' & (Hl & _)%Hiff & ->). congruence.
Qed.

(** When the lookup works and the conditions do not all hold, the callback
    gets [null] and the store is untouched. *)
Lemma redeem_invalid env data st :
  grant_get_failure env = None ->
  (~ exists g, redeemable fresh st (now env) data g) ->
  value (run env (redeem data) st) = Some (Called None)
  /\ store (run env (redeem data) st) = st.
Proof.
  intros Hget Hn. rewrite run_redeem, Hget.
  destruct (JS.split "|" (gd_code data)) as [|id [|code [|x l]]] eqn:Hs; simpl; try done.
  destruct (grants st !! id) as [g|] eqn:Hg; simpl; [|done].
  destruct (_ || _ || _) eqn:Hc; simpl; [done|].
  exfalso. apply Hn. exists g.
  apply (redeemable_split fresh st (now env) data g id code Hs).
  apply checks_pass_iff in Hc. tauto.
Qed.

(** C1, as the code has it: when the lookup and the delete of the grant both
    work, [valid_grant] hands a token to its callback if and only if the
    presented code splits on the delimiter into exactly an id and a code, the
    store holds a grant under that id, the grant is at most 60000 ms old,
    its client is the redeeming client and its code is the presented one;
    the token is then built from the grant's user and client ids; and when
    the conditions do not all hold the callback gets [null]. *)
Theorem valid_grant_token_iff env data st :
  grant_get_failure env = None ->
  grant_delete_failure env = None ->
  (forall token,
     value (run env (redeem data) st) = Some (Called (Some token))
     <-> exists g, redeemable fresh st (now env) data g /\ token = token_of g)
  /\ ((~ exists g, redeemable fresh st (now env) data g) ->
      value (run env (redeem data) st) = Some (Called None)).
Proof.
  intros Hget Hdel. split.
  - intros token. rewrite redeem_token_iff. tauto.
  - intros Hn. by apply redeem_invalid.
Qed.

Lemma run_token_endpoint_client {A} env st params c :
  authenticated env st params c ->
  run env (token_endpoint_client (A := A) params) st
  = emitted (db_client_get (JS.str (params !! "client_id")))
      (run env
         (valid_grant (redeem_data params c)
            (fun token =>
               match token with
               | None => oauth_error "oat" "invalid_grant"
               | Some token =>
                   writeHead 200 [("Content-Type", "application/json");
                                  ("Cache-Control", "no-store")] ;;;
                   end_ (JSON (token_json token)) ;;; Stop
               end)
            (fun err => unknown_error err)) st).
Proof.
  intros (Hf & Hc & Hs & Hr). unfold token_endpoint_client. cbn [run].
  rewrite Hf, Hc, Hs, Hr. reflexivity.
Qed.

Lemma arity_delimiters s :
  length (JS.split "|" s) <> 2%nat
  <-> JS.occurrences "|" s = 0%nat \/ (2 <= JS.occurrences "|" s)%nat.
Proof. rewrite split_length. lia. Qed.

(** C6: a presented code without the delimiter, or with two or more of
    them, does not split into two parts; [valid_grant] then calls its
    callback with [null] at once, touching neither the store nor the
    response, and the token endpoint answers [invalid_grant] with status
    400. *)
Theorem malformed_code_invalid {A} env st code :
  JS.occurrences "|" code = 0%nat \/ (2 <= JS.occurrences "|" code)%nat ->
  length (JS.split "|" code) <> 2%nat
  /\ (forall client_id,
        run env (redeem {| gd_code := code; gd_client_id := client_id |}) st
        = {| value := Some (Called None); store := st; trace := [] |})
  /\ (forall params c,
        authenticated env st params c ->
        JS.str (params !! "code") = code ->
        run env (token_endpoint_client (A := A) params) st
        = {| value := None; store := st;
             trace := db_client_get (JS.str (params !! "client_id"))
                      :: oauth_error_events "oat" "invalid_grant" |}).
Proof.
  intros Hn%arity_delimiters. split; [done|]. split.
  - intros client_id. unfold redeem. rewrite run_valid_grant. simpl.
    destruct (JS.split "|" code) as [|id [|c [|x l]]]; done.
  - intros params c Ha Hcode. rewrite (run_token_endpoint_client _ _ _ c Ha).
    rewrite run_valid_grant. unfold redeem_data; simpl. rewrite Hcode.
    destruct (JS.split "|" code) as [|id [|c' [|x l]]]; done.
Qed.


Lemma check_fails_not_redeemable env st data :
  check_fails env st data -> ~ exists g, redeemable fresh st (now env) data g.
Proof.
  intros [Hn | (id & code & Hs & _ & Hc)] [g Hr].
  - by apply redeemable_arity in Hr.
  - apply (redeemable_split fresh st (now env) data g id code Hs) in Hr.
    destruct Hr as (Hl & Hw & Hcl & Hco). unfold fresh in Hw.
    destruct Hc as [Hnone | (g' & Hl' & Hc)]; [congruence|].
    assert (g' = g) as -> by congruence.
    destruct Hc as [?|[?|?]]; [lia|done|done].
Qed.

Lemma check_fails_lookup_works env st data :
  check_fails env st data ->
  length (JS.split "|" (gd_code data)) <> 2%nat \/ grant_get_failure env = None.
Proof. intros [Hn | (id & code & _ & Hg & _)]; tauto. Qed.

(** The outcome of a redemption whose check fails, for any callbacks. *)
Lemma run_valid_grant_rejected {A} env st data
    (callback : option Token -> Prog A) (fallback : Error -> Prog A) :
  check_fails env st data ->
  exists t,
    run env (valid_grant data callback fallback) st
    = {| value := value (run env (callback None) st);
         store := store (run env (callback None) st);
         trace := (t ++ trace (run env (callback None) st))%list |}
    /\ (t = [] \/ exists id, t = [db_grant_get id]).
Proof.
  intros Hc. pose proof (check_fails_not_redeemable _ _ _ Hc) as Hn.
  rewrite run_valid_grant.
  destruct (JS.split "|" (gd_code data)) as [|id [|code [|x l]]] eqn:Hs;
    try (exists []; split; [by destruct (run env (callback None) st)|by left]).
  destruct (check_fails_lookup_works _ _ _ Hc) as [Ha | Hget];
    [by rewrite Hs in Ha|].
  rewrite Hget. exists [db_grant_get id]. split; [|by right; exists id].
  destruct (grants st !! id) as [g|] eqn:Hg; [|reflexivity].
  destruct (_ || _ || _) eqn:Hck; [reflexivity|].
  exfalso. apply Hn. exists g.
  apply (redeemable_split fresh st (now env) data g id code Hs).
  apply checks_pass_iff in Hck. tauto.
Qed.

Lemma oauth_error_no_server_error {A} env type id st err :
  ~ In (server_error err) (trace (run env (oauth_error (A := A) type id) st)).
Proof. simpl. intuition congruence. Qed.

Lemma unknown_error_path_client {A} env params st err :
  In (server_error err) (trace (run env (token_endpoint_client (A := A) params) st)) ->
  client_get_failure env = Some err \/ grant_delete_failure env = Some err.
Proof.
  unfold token_endpoint_client. cbn [run].
  destruct (client_get_failure env) as [e|]; [simpl; intuition congruence|].
  destruct (clients st !! _) as [c|]; [|simpl; intuition congruence].
  destruct (JS.ne _ _); [simpl; intuition congruence|].
  destruct (JS.ne _ _); [simpl; intuition congruence|].
  rewrite run_valid_grant.
  destruct (JS.split _ _) as [|id [|code [|x l]]]; try (simpl; intuition congruence).
  destruct (grant_get_failure env); [simpl; intuition congruence|].
  destruct (grants st !! id) as [g|]; [|simpl; intuition congruence].
  destruct (_ || _ || _); [simpl; intuition congruence|].
  destruct (grant_delete_failure env); simpl; intuition congruence.
Qed.

Lemma unknown_error_path {A} env req st err :
  In (server_error err) (trace (run env (token_endpoint (A := A) req) st)) ->
  client_get_failure env = Some err \/ grant_delete_failure env = Some err.
Proof.
  unfold token_endpoint.
  destruct (form req) as [[e|params]|];
    try (intros []%oauth_error_no_server_error).
  cbv zeta.
  destruct (existsb _ _); [intros []%oauth_error_no_server_error|].
  destruct (JS.ne _ _); [intros []%oauth_error_no_server_error|].
  destruct (JS.truthy (authorization req)).
  - destruct (JS.truthy _); [intros []%oauth_error_no_server_error|].
    apply unknown_error_path_client.
  - destruct (negb _); [intros []%oauth_error_no_server_error|].
    apply unknown_error_path_client.
Qed.

(** C5: when a validity check of a redemption fails, the callback gets
    [null], the store is the same as before and no delete is issued; the
    token endpoint then answers 400 [invalid_grant] and nothing else; and a
    server error is only ever reported for an error of the store. *)
Theorem failed_check_is_invalid env st data :
  check_fails env st data ->
  (value (run env (redeem data) st) = Some (Called None)
   /\ store (run env (redeem data) st) = st
   /\ forall id, ~ In (db_grant_delete id) (trace (run env (redeem data) st)))
  /\ (forall params c,
        authenticated env st params c ->
        redeem_data params c = data ->
        store (run env (token_endpoint_client (A := unit) params) st) = st
        /\ exists t,
             trace (run env (token_endpoint_client (A := unit) params) st)
             = (t ++ oauth_error_events "oat" "invalid_grant")%list
             /\ forall e, In e t -> exists id, e = db_client_get id \/ e = db_grant_get id)
  /\ (forall req st' err,
        In (server_error err) (trace (run env (token_endpoint (A := unit) req) st')) ->
        client_get_failure env = Some err \/ grant_delete_failure env = Some err).
Proof.
  intros Hc. split; [|split].
  - destruct (run_valid_grant_rejected env st data
               (fun token => Ret (Called token)) (fun err => Ret (Failed err)) Hc)
      as (t & Hrun & Ht).
    unfold redeem. rewrite Hrun. simpl. do 2 (split; [done|]).
    intros id. rewrite app_nil_r. destruct Ht as [-> | [i ->]]; simpl; intuition congruence.
  - intros params c Ha <-. rewrite (run_token_endpoint_client _ _ _ c Ha).
    destruct (run_valid_grant_rejected env st (redeem_data params c)
               (fun token =>
                  match token with
                  | None => oauth_error (A := unit) "oat" "invalid_grant"
                  | Some token =>
                      writeHead 200 [("Content-Type", "application/json");
                                     ("Cache-Control", "no-store")] ;;;
                      end_ (JSON (token_json token)) ;;; Stop
                  end) (fun err => unknown_error err) Hc)
      as (t & Hrun & Ht).
    rewrite Hrun. simpl. split; [done|].
    exists (db_client_get (JS.str (params !! "client_id")) :: t). split; [done|].
    intros e [<- | He]; [by eexists; left|].
    destruct Ht as [-> | [i ->]]; simpl in He; [done|].
    destruct He as [<- | []]. by eexists; right.
  - intros req st' err. apply unknown_error_path.
Qed.

(** C3, as the code has it: a token is only produced when the grant is at
    most 60000 ms old ([now <= T + 60000]); a grant presented later than
    that is rejected with [invalid_grant]; a grant presented exactly
    60000 ms after its issue is still redeemed. *)
Theorem window_inclusive env data st :
  (forall token,
     value (run env (redeem data) st) = Some (Called (Some token)) ->
     exists g, grants st !! nth 0 (JS.split "|" (gd_code data)) "" = Some g
               /\ token = token_of g /\ now env <= Grant.time g + 60000)
  /\ (forall id code g,
        JS.split "|" (gd_code data) = [id; code] ->
        grant_get_failure env = None ->
        grants st !! id = Some g ->
        Grant.time g + 60000 < now env ->
        run env (redeem data) st
        = {| value := Some (Called None); store := st; trace := [db_grant_get id] |}
        /\ forall params c,
             authenticated env st params c ->
             redeem_data params c = data ->
             run env (token_endpoint_client (A := unit) params) st
             = {| value := None; store := st;
                  trace := db_client_get (JS.str (params !! "client_id"))
                           :: db_grant_get id
                           :: oauth_error_events "oat" "invalid_grant" |})
  /\ (forall g,
        grant_get_failure env = None ->
        grant_delete_failure env = None ->
        redeemable (fun _ _ => True) st (now env) data g ->
        now env = Grant.time g + 60000 ->
        value (run env (redeem data) st) = Some (Called (Some (token_of g)))).
Proof.
  split; [|split].
  - intros token (_ & _ & g & (id & code & Hs & Hl & Hw & _) & ->)%redeem_token_iff.
    exists g. rewrite Hs. simpl. unfold fresh in Hw. split; [done|]. split; [done|lia].
  - intros id code g Hs Hget Hl Hlate.
    assert (Z.ltb (Grant.time g) (now env - 60000) = true) as Hlt by (apply Z.ltb_lt; lia).
    split.
    + rewrite run_redeem, Hs, Hget, Hl, Hlt. reflexivity.
    + intros params c Ha <-. rewrite (run_token_endpoint_client _ _ _ c Ha).
      rewrite run_valid_grant, Hs, Hget, Hl, Hlt. reflexivity.
  - intros g Hget Hdel (id & code & Hs & Hl & _ & Hcl & Hco) Hnow.
    apply redeem_token_iff. do 2 (split; [done|]). exists g. split; [|done].
    exists id, code. unfold fresh. repeat split; try done. lia.
Qed.

End Redemption.


(** ** Client secret, grant issue and the authorization endpoint *)

Section Endpoints.
Context {P : Platform}.

Lemma slice_prefix prefix s : JS.slice (String.length prefix) (prefix +:+ s) = s.
Proof. induction prefix as [|a p IH]; simpl; [by destruct s|done]. Qed.

Lemma truthy_Some v : JS.truthy v = true -> exists s, v = Some s /\ s <> "".
Proof.
  destruct v as [s|]; simpl; [|done]. intros H. exists s. split; [done|].
  intros ->. done.
Qed.

(** C7: for a token request that passed the schema and grant-type checks,
    a secret given both in the Authorization header and in the form is
    answered [invalid_request] whatever the two values are, and so is a
    request with neither; a secret given in the header alone is the header
    without its first six characters, compared as it is with the stored
    one. *)
Theorem client_secret_exactly_once env req params st :
  passes_schema req params ->
  (JS.truthy (authorization req) = true ->
   JS.truthy (params !! "client_secret") = true ->
   run env (token_endpoint (A := unit) req) st
   = {| value := None; store := st; trace := oauth_error_events "oat" "invalid_request" |})
  /\ (JS.truthy (authorization req) = false ->
      JS.truthy (params !! "client_secret") = false ->
      run env (token_endpoint (A := unit) req) st
      = {| value := None; store := st; trace := oauth_error_events "oat" "invalid_request" |})
  /\ (forall header,
        authorization req = Some header -> header <> "" ->
        JS.truthy (params !! "client_secret") = false ->
        token_endpoint (A := unit) req
        = token_endpoint_client (<["client_secret" := JS.slice 6 header]> params)
        /\ forall c,
             client_get_failure env = None ->
             clients st !! JS.str (params !! "client_id") = Some c ->
             (Client.secret c <> JS.slice 6 header ->
              run env (token_endpoint (A := unit) req) st
              = {| value := None; store := st;
                   trace := db_client_get (JS.str (params !! "client_id"))
                            :: oauth_error_events "oat" "invalid_client" |})
             /\ (Client.secret c = JS.slice 6 header ->
                 Some (Client.redirect_uri c) = params !! "redirect_uri" ->
                 authenticated env st (<["client_secret" := JS.slice 6 header]> params) c))
  /\ (forall scheme secret,
        String.length scheme = 6%nat -> JS.slice 6 (scheme +:+ secret) = secret).
Proof.
  intros (Hform & Hmand & Hgt). split; [|split; [|split]].
  - intros Hh Hs. unfold token_endpoint. rewrite Hform. cbv zeta.
    rewrite Hmand, Hgt, Hh, Hs. reflexivity.
  - intros Hh Hs. unfold token_endpoint. rewrite Hform. cbv zeta.
    rewrite Hmand, Hgt, Hh, Hs. reflexivity.
  - intros header Hh Hne Hs.
    assert (JS.truthy (authorization req) = true) as Ht.
    { rewrite Hh. simpl. apply negb_true_iff. by apply String.eqb_neq. }
    assert (token_endpoint (A := unit) req
            = token_endpoint_client (<["client_secret" := JS.slice 6 header]> params)) as Heq.
    { unfold token_endpoint. rewrite Hform. cbv zeta.
      rewrite Hmand, Hgt, Ht, Hs, Hh. reflexivity. }
    split; [done|]. intros c Hf Hc.
    assert (forall k, k <> "client_secret" ->
              <["client_secret" := JS.slice 6 header]> params !! k = params !! k) as Hother.
    { intros k Hk. by rewrite lookup_insert_ne. }
    split.
    + intros Hsec. rewrite Heq. unfold token_endpoint_client. cbn [run].
      rewrite Hf, (Hother "client_id"), Hc by done. rewrite lookup_insert_eq.
      assert (JS.ne (Some (Client.secret c)) (Some (JS.slice 6 header)) = true) as ->.
      { simpl. unfold JS.neq. apply negb_true_iff. by apply String.eqb_neq. }
      reflexivity.
    + intros Hsec Hred. unfold authenticated.
      rewrite (Hother "client_id"), (Hother "redirect_uri") by done.
      rewrite lookup_insert_eq, <- Hred, Hsec.
      repeat split; try done; simpl; unfold JS.neq; by rewrite String.eqb_refl.
  - intros scheme secret <-. apply slice_prefix.
Qed.

(** C8: [send_grant] redirects exactly when the grant was saved; the target
    is the client's redirect_uri followed by the query made of
    [code = id|code] of the stored grant and, when set, the unchanged
    [state]; when the save fails the error is logged and reported as a
    server error, the store is unchanged and nothing is redirected. *)
Theorem send_grant_redirects_iff_saved env user_id client_data st :
  let o := run env (send_grant (A := unit) user_id client_data) st in
  let g := saved env (new_grant env user_id client_data) in
  (grant_save_failure env = None ->
   grants (store o) !! Grant.id g = Some g
   /\ trace o
      = [ db_grant_save (new_grant env user_id client_data);
          redirect (cd_redirect_uri client_data +:+ "?"
                    +:+ querystring_stringify (redirect_query g client_data)) ])
  /\ (forall err,
        grant_save_failure env = Some err ->
        store o = st
        /\ trace o
           = [ db_grant_save (new_grant env user_id client_data);
               console_log (message err); console_log (stack err); server_error err ])
  /\ ((exists target, In (redirect target) (trace o)) <-> grant_save_failure env = None).
Proof.
  intros o g. subst o g. unfold send_grant. cbn [run].
  fold (new_grant env user_id client_data).
  destruct (grant_save_failure env) as [e|] eqn:Hsave.
  - split; [done|]. split.
    + intros err [= <-]. done.
    + split; [|done]. intros [target Hin]. simpl in Hin. intuition congruence.
  - split; [|split; [done|]].
    + intros _. split; [simpl; apply lookup_insert_eq|].
      unfold redirect_query. destruct (cd_state client_data) as [s|]; simpl; [|done].
      destruct (String.eqb s ""); reflexivity.
    + split; [done|]. intros _. eexists. simpl. right. left. reflexivity.
Qed.

(** With a query member the form is not read, whatever it holds. *)
Lemma query_string_accepted req params :
  URL_parse_query (url req) = Some params ->
  authorize_endpoint (A := unit) req = authorize params.
Proof. intros Hq. unfold authorize_endpoint. by rewrite Hq. Qed.

(** Where the URL parser gives a query object for every URL, as Node's does,
    the branch of [authorize_endpoint] that reads the form is never taken:
    the endpoint does the same for every form. *)
Lemma form_not_consulted req f :
  (forall u, URL_parse_query u <> None) ->
  authorize_endpoint (A := unit) req
  = authorize_endpoint
      {| url := url req; form := f; authorization := authorization req |}.
Proof.
  intros Hq. unfold authorize_endpoint. cbn [url].
  destruct (URL_parse_query (url req)) as [params|] eqn:E; [done|].
  by destruct (Hq (url req)).
Qed.

End Endpoints.

(** ** Response types in [authorize] *)

Section Authorization.
Context {P : Platform}.

Lemma response_types_lookup rt :
  PARAMS.eua.response_types !! rt = if decide (recognized rt) then Some 1 else None.
Proof.
  unfold PARAMS.eua.response_types, recognized.
  destruct (decide (rt = "token")) as [->|H1]; [by case_decide; [|tauto]|].
  destruct (decide (rt = "code")) as [->|H2]; [by case_decide; [|tauto]|].
  destruct (decide (rt = "code_and_token")) as [->|H3]; [by case_decide; [|tauto]|].
  rewrite !lookup_insert_ne, lookup_empty by done.
  case_decide; [tauto|done].
Qed.

(** The enumeration check lets through the three listed values and every
    name a plain object inherits. *)
Lemma truthy_member_response_types rt :
  JS.truthy_member PARAMS.eua.response_types rt = true
  <-> recognized rt \/ In rt JS.Object_prototype.
Proof.
  unfold JS.truthy_member. rewrite response_types_lookup.
  case_decide as Hr; [simpl; tauto|].
  rewrite existsb_exists. split.
  - intros (x & Hin & ->%String.eqb_eq). by right.
  - intros [?|Hin]; [done|]. exists rt. split; [done|apply String.eqb_refl].
Qed.

Lemma truthy_str v : JS.truthy v = true -> v = Some (JS.str v) /\ JS.str v <> "".
Proof.
  destruct v as [s|]; simpl; [|done]. intros H. split; [done|]. by intros ->.
Qed.

Lemma eua_complete_response_type params :
  eua_complete params -> JS.truthy (params !! "response_type") = true.
Proof.
  unfold eua_complete. simpl. rewrite !orb_false_iff, !negb_false_iff. tauto.
Qed.

(** [unsupported_response_type] is reported exactly when the enumeration
    check fails. *)
Lemma unsupported_iff_check_fails params :
  eua_complete params ->
  authorize (A := unit) params = oauth_error "eua" "unsupported_response_type"
  <-> JS.truthy_member PARAMS.eua.response_types (JS.str (params !! "response_type")) = false.
Proof.
  intros Hc. unfold authorize. cbv zeta. unfold eua_complete in Hc. rewrite Hc.
  destruct (JS.truthy_member _ _); simpl; [|done].
  split; [|done]. destruct (JS.ne _ _); [done|]. unfold authorize_client. done.
Qed.

(** A value that passes the enumeration check and is not ["code"] gets the
    not-implemented response, and the rest of [authorize] runs after it. *)
Lemma authorize_not_code params :
  eua_complete params ->
  JS.truthy_member PARAMS.eua.response_types (JS.str (params !! "response_type")) = true ->
  JS.str (params !! "response_type") <> "code" ->
  authorize (A := unit) params
  = writeHead 501 [("Content-Type", "text/html")] ;;;
    end_ (Text not_implemented_text) ;;;
    authorize_client params.
Proof.
  intros Hc Hm Hne. unfold authorize. cbv zeta.
  pose proof (eua_complete_response_type _ Hc) as [Hs _]%truthy_str.
  unfold eua_complete in Hc. rewrite Hc, Hm. simpl negb. cbv iota.
  rewrite Hs. simpl. unfold JS.neq.
  apply String.eqb_neq in Hne. by rewrite Hne.
Qed.

Lemma authorize_code params :
  eua_complete params ->
  params !! "response_type" = Some "code" ->
  authorize (A := unit) params = authorize_client params.
Proof.
  intros Hc Hrt. unfold authorize. cbv zeta.
  unfold eua_complete in Hc. rewrite Hc, Hrt. reflexivity.
Qed.

End Authorization.

(** C4, on the code: for [response_type = token] the 501 response is
    written and [authorize] goes on: the client is looked up and the login
    flow is invoked for the same request. *)
Theorem not_implemented_falls_through :
  run (Sample.env 1000)
      (authorize (A := unit) (P := Sample.platform) (Sample.eua_params "token"))
      Sample.store1
  = {| value := None; store := Sample.store1;
       trace := (not_implemented_events ++ [db_client_get "C1"; login Sample.ctx1])%list |}.
Proof. vm_compute. reflexivity. Qed.

(** C10, on the code: [constructor] is none of the three listed response
    types, yet it passes the enumeration check, because the table is a plain
    object: no [unsupported_response_type] is reported and the request takes
    the not-implemented path. *)
Theorem inherited_member_recognized :
  ~ recognized "constructor"
  /\ run (Sample.env 1000)
         (authorize (A := unit) (P := Sample.platform) (Sample.eua_params "constructor"))
         Sample.store1
     = {| value := None; store := Sample.store1;
          trace := (not_implemented_events ++ [db_client_get "C1"; login Sample.ctx1])%list |}.
Proof.
  split; [unfold recognized; intuition congruence|].
  vm_compute. reflexivity.
Qed.

(** ** Interleaved redemptions *)

Section Interleaving.

Lemma drive_turn {A} m env (p : Prog A) st p1 st1 t1 :
  (forall a, p <> Ret a) -> p <> Stop ->
  complete env p st = (p1, st1, t1) ->
  drive (S m) env p st
  = prefixed (t1 ++ (sync env p1).2) (drive m env (sync env p1).1 st1).
Proof.
  intros Hr Hs Hc. destruct p; try (by destruct (Hr a)); try done;
    cbn [drive]; unfold turn; rewrite Hc; by destruct (sync env p1).
Qed.

(** Given every turn, a handler does under [drive] what [run] says. *)
Lemma run_drive {A} env (p : Prog A) st :
  exists n, forall m, (n <= m)%nat ->
    run env p st = prefixed (sync env p).2 (drive m env (sync env p).1 st).
Proof.
  revert st. induction p as [a| |e k IH|k IH|n k IH|ids cb IHc fb IHf
                            |ids cb IHc fb IHf|f cb IHc fb IHf|g cb IHc fb IHf];
    intros st.
  - exists 0%nat. intros m _. by destruct m.
  - exists 0%nat. intros m _. by destruct m.
  - destruct (IH st) as [n Hn]. exists n. intros m Hm. cbn [run sync].
    rewrite (Hn m Hm). by destruct (sync env k).
  - destruct (IH (now env) st) as [n Hn]. exists n. intros m Hm. apply (Hn m Hm).
  - destruct (IH (random env n) st) as [n' Hn]. exists n'. intros m Hm. apply (Hn m Hm).
  - cbn [sync run fst snd].
    destruct (client_get_failure env) as [err|] eqn:Hf.
    + destruct (IHf err st) as [n Hn]. exists (S n). intros [|m] Hm; [lia|].
      rewrite (drive_turn m env _ st (fb err) st [db_client_get ids]); try done.
      * rewrite (Hn m) by lia. reflexivity.
      * cbn [complete]. by rewrite Hf.
    + destruct (IHc (clients st !! ids) st) as [n Hn]. exists (S n). intros [|m] Hm; [lia|].
      rewrite (drive_turn m env _ st (cb (clients st !! ids)) st [db_client_get ids]);
        try done.
      * rewrite (Hn m) by lia. reflexivity.
      * cbn [complete]. by rewrite Hf.
  - cbn [sync run fst snd].
    destruct (grant_get_failure env) as [err|] eqn:Hf.
    + destruct (IHf err st) as [n Hn]. exists (S n). intros [|m] Hm; [lia|].
      rewrite (drive_turn m env _ st (fb err) st [db_grant_get ids]); try done.
      * rewrite (Hn m) by lia. reflexivity.
      * cbn [complete]. by rewrite Hf.
    + destruct (IHc (grants st !! ids) st) as [n Hn]. exists (S n). intros [|m] Hm; [lia|].
      rewrite (drive_turn m env _ st (cb (grants st !! ids)) st [db_grant_get ids]);
        try done.
      * rewrite (Hn m) by lia. reflexivity.
      * cbn [complete]. by rewrite Hf.
  - cbn [sync run fst snd].
    destruct (grant_save_failure env) as [err|] eqn:Hf.
    + destruct (IHf err st) as [n Hn]. exists (S n). intros [|m] Hm; [lia|].
      rewrite (drive_turn m env _ st (fb err) st [db_grant_save f]); try done.
      * rewrite (Hn m) by lia. reflexivity.
      * cbn [complete]. by rewrite Hf.
    + set (st' := set_grants (<[Grant.id (saved env f) := saved env f]> (grants st)) st).
      destruct (IHc (saved env f) st') as [n Hn]. exists (S n). intros [|m] Hm; [lia|].
      rewrite (drive_turn m env _ st (cb (saved env f)) st' [db_grant_save f]); try done.
      * rewrite (Hn m) by lia. reflexivity.
      * cbn [complete]. by rewrite Hf.
  - cbn [sync run fst snd].
    destruct (grant_delete_failure env) as [err|] eqn:Hf.
    + destruct (IHf err st) as [n Hn]. exists (S n). intros [|m] Hm; [lia|].
      rewrite (drive_turn m env _ st (fb err) st [db_grant_delete (Grant.id g)]); try done.
      * rewrite (Hn m) by lia. reflexivity.
      * cbn [complete]. by rewrite Hf.
    + set (st' := set_grants (delete (Grant.id g) (grants st)) st).
      destruct (IHc st') as [n Hn]. exists (S n). intros [|m] Hm; [lia|].
      rewrite (drive_turn m env _ st cb st' [db_grant_delete (Grant.id g)]); try done.
      * rewrite (Hn m) by lia. reflexivity.
      * cbn [complete]. by rewrite Hf.
Qed.

(** Redeeming a code a second time, after the first redemption has
    completed, is rejected. *)
Lemma redeem_twice env1 env2 data st token :
  store_ok st ->
  value (run env1 (redeem data) st) = Some (Called (Some token)) ->
  grant_get_failure env2 = None ->
  value (run env2 (redeem data) (store (run env1 (redeem data) st))) = Some (Called None).
Proof.
  intros Hok Hfirst Hget2.
  pose proof Hfirst as (Hget & Hdel & g & (id & code & Hs & Hl & Hw & Hcl & Hco) & ->)%redeem_token_iff.
  assert (Z.ltb (Grant.time g) (now env1 - 60000)
          || JS.neq (Grant.client_id g) (gd_client_id data)
          || JS.neq (Grant.code g) code = false) as Hck by (by apply checks_pass_iff).
  rewrite (run_redeem env1), Hs, Hget, Hl, Hck, Hdel. cbn [store emitted].
  rewrite run_redeem, Hs, Hget2. cbn [grants set_grants].
  rewrite (Hok id g Hl), lookup_delete_eq. reflexivity.
Qed.

Lemma run_preserves_store_ok {A} env (p : Prog A) st :
  store_ok st -> store_ok (store (run env p st)).
Proof.
  revert st. induction p as [a| |e k IH|k IH|n k IH|ids cb IHc fb IHf
                            |ids cb IHc fb IHf|f cb IHc fb IHf|g cb IHc fb IHf];
    intros st Hok; cbn [run store emitted halted]; auto.
  - destruct (client_get_failure env); auto.
  - destruct (grant_get_failure env); auto.
  - destruct (grant_save_failure env); auto. apply IHc.
    intros k g'. cbn [grants set_grants]. rewrite lookup_insert.
    case_decide; [by intros [= <-]|]. apply Hok.
  - destruct (grant_delete_failure env); auto. apply IHc.
    intros k g'. cbn [grants set_grants]. rewrite lookup_delete.
    case_decide; [done|]. apply Hok.
Qed.

End Interleaving.

(** C2, on the code: when the lookups of two redemptions of the same code
    both complete before either delete, both redemptions end with a token,
    and both token requests are answered 200 with the access token. *)
Theorem concurrent_redemptions_both_succeed :
  (let '(pool, st) := exec Race.interleaved Race.attempts Sample.store1 in
   Forall got_token pool /\ length pool = 2%nat /\ grants st = ∅)
  /\ (let '(pool, st) := exec Race.interleaved_requests Race.requests Sample.store1 in
      map done_so_far pool
      = [ ([db_client_get "C1"; db_grant_get "g1"; db_grant_delete "g1"]
             ++ Sample.token_response)%list;
          ([db_client_get "C1"; db_grant_get "g1"; db_grant_delete "g1"]
             ++ Sample.token_response)%list ]).
Proof.
  split.
  - vm_compute. split; [|done].
    repeat constructor; by eexists.
  - vm_compute. reflexivity.
Qed.

Example sequential_redemptions_one_succeeds :
  map pending (exec Race.one_by_one Race.attempts Sample.store1).1
  = [ Ret (Called (Some {| access_token := "U1,C1" |})); Ret (Called None) ].
Proof. vm_compute. reflexivity. Qed.

(** ** From [send_grant] to [valid_grant] *)

Section RoundTrip.
Context {P : Platform}.

Lemma split_no_separator c s : JS.occurrences c s = 0%nat -> JS.split c s = [s].
Proof.
  induction s as [|a s IH]; simpl; [done|].
  destruct (Ascii.eqb a c); [done|]. intros H. by rewrite IH.
Qed.

Lemma split_join id code :
  JS.occurrences "|" id = 0%nat ->
  JS.occurrences "|" code = 0%nat ->
  JS.split "|" (id +:+ "|" +:+ code) = [id; code].
Proof.
  intros Hid Hcode. induction id as [|a id IH].
  - simpl. by rewrite split_no_separator.
  - simpl in *. destruct (Ascii.eqb a "|"); [done|]. by rewrite IH.
Qed.

(** The code [send_grant] hands out is redeemed by [valid_grant] for the
    same client up to one minute later, when neither the id nor the random
    part contains the delimiter. *)
Lemma issued_code_redeems env1 env2 user_id client_data st :
  grant_save_failure env1 = None ->
  grant_get_failure env2 = None ->
  grant_delete_failure env2 = None ->
  JS.occurrences "|" (fresh_id env1) = 0%nat ->
  JS.occurrences "|" (random env1 128) = 0%nat ->
  now env2 <= now env1 + 60000 ->
  value (run env2
           (redeem {| gd_code := fresh_id env1 +:+ "|" +:+ random env1 128;
                      gd_client_id := cd_client_id client_data |})
           (store (run env1 (send_grant (A := unit) user_id client_data) st)))
  = Some (Called (Some {| access_token :=
                            create_access_token user_id (cd_client_id client_data) |})).
Proof.
  intros Hsave Hget Hdel Hid Hcode Hnow.
  apply redeem_token_iff. do 2 (split; [done|]).
  exists (saved env1 (new_grant env1 user_id client_data)). split; [|done].
  exists (fresh_id env1), (random env1 128). cbn [gd_code gd_client_id].
  split; [by apply split_join|].
  unfold send_grant. cbn [run]. rewrite Hsave. cbn [store emitted grants set_grants].
  split; [apply lookup_insert_eq|].
  unfold fresh. simpl. repeat split; try done. lia.
Qed.

End RoundTrip.

(** ** The properties at the sample world *)

Lemma valid_grant_token_iff_witness :
  grant_get_failure (Sample.env 1000) = None
  /\ grant_delete_failure (Sample.env 1000) = None
  /\ forall token,
       value (run (Sample.env 1000) (redeem Sample.data1) Sample.store1)
       = Some (Called (Some token))
       <-> exists g, redeemable fresh Sample.store1 (now (Sample.env 1000)) Sample.data1 g
                     /\ token = token_of g.
Proof.
  split; [reflexivity|]. split; [reflexivity|].
  exact (proj1 (valid_grant_token_iff (Sample.env 1000) Sample.data1 Sample.store1
                  eq_refl eq_refl)).
Defined.

Lemma valid_grant_token_iff_as_specified_fails :
  (* every condition holds, the delete fails: no token *)
  (redeemable fresh_strict Sample.store1 1000 Sample.data1 Sample.g1
   /\ value (run (Sample.env_delete_fails 1000) (redeem Sample.data1) Sample.store1)
      = Some (Failed Sample.boom))
  /\
  (* the grant is exactly one minute old, outside [now - issued_at < 60s]: a token *)
  (~ (exists g, redeemable fresh_strict Sample.store1 61000 Sample.data1 g)
   /\ value (run (Sample.env 61000) (redeem Sample.data1) Sample.store1)
      = Some (Called (Some {| access_token := "U1,C1" |}))).
Proof.
  split; split.
  - exists "g1", "abc". unfold fresh_strict. repeat split; vm_compute; done.
  - vm_compute. reflexivity.
  - intros (g & id & code & Hs & Hl & Hw & _). vm_compute in Hs.
    injection Hs as <- <-. vm_compute in Hl. injection Hl as <-.
    unfold fresh_strict in Hw. simpl in Hw. lia.
  - vm_compute. reflexivity.
Qed.

Lemma window_inclusive_witness :
  JS.split "|" (gd_code Sample.data1) = ["g1"; "abc"]
  /\ grants Sample.store1 !! "g1" = Some Sample.g1
  /\ Grant.time Sample.g1 + 60000 < now (Sample.env 61001)
  /\ run (Sample.env 61001) (redeem Sample.data1) Sample.store1
     = {| value := Some (Called None); store := Sample.store1;
          trace := [db_grant_get "g1"] |}.
Proof.
  assert (Hlate : Grant.time Sample.g1 + 60000 < now (Sample.env 61001)) by (simpl; lia).
  do 3 (split; [first [reflexivity | exact Hlate]|]).
  exact (proj1 (proj1 (proj2 (window_inclusive (P := Sample.platform) (Sample.env 61001)
                                Sample.data1 Sample.store1))
                  "g1" "abc" Sample.g1 eq_refl eq_refl eq_refl Hlate)).
Defined.

Lemma window_strict_counterexample :
  grants Sample.store1 !! "g1" = Some Sample.g1
  /\
  (* presented exactly 60 s after the issue: redeemed *)
  (now (Sample.env 61000) = Grant.time Sample.g1 + 60000
   /\ run (Sample.env 61000)
          (token_endpoint (A := unit) (P := Sample.platform) Sample.token_request)
          Sample.store1
      = {| value := None; store := Sample.empty_store;
           trace := ([db_client_get "C1"; db_grant_get "g1"; db_grant_delete "g1"]
                     ++ Sample.token_response)%list |})
  /\
  (* presented with a clock behind the issue time: redeemed *)
  (now (Sample.env 500) < Grant.time Sample.g1
   /\ value (run (Sample.env 500) (redeem Sample.data1) Sample.store1)
      = Some (Called (Some {| access_token := "U1,C1" |}))).
Proof.
  split; [reflexivity|]. split; split.
  - reflexivity.
  - vm_compute. reflexivity.
  - simpl. lia.
  - vm_compute. reflexivity.
Qed.

Lemma stale_grant_check_fails : check_fails (Sample.env 61001) Sample.store1 Sample.data1.
Proof.
  right. exists "g1", "abc". split; [reflexivity|]. split; [reflexivity|].
  right. exists Sample.g1. split; [reflexivity|]. left. simpl. lia.
Defined.

Lemma failed_check_is_invalid_witness :
  check_fails (Sample.env 61001) Sample.store1 Sample.data1
  /\ value (run (Sample.env 61001) (redeem Sample.data1) Sample.store1) = Some (Called None)
  /\ store (run (Sample.env 61001) (redeem Sample.data1) Sample.store1) = Sample.store1.
Proof.
  split; [exact stale_grant_check_fails|].
  destruct (failed_check_is_invalid (P := Sample.platform) (Sample.env 61001)
              Sample.store1 Sample.data1 stale_grant_check_fails) as ((Hv & Hs & _) & _).
  exact (conj Hv Hs).
Defined.

Lemma malformed_code_invalid_witness :
  (JS.occurrences "|" "g1abc" = 0%nat \/ (2 <= JS.occurrences "|" "g1abc")%nat)
  /\ run (Sample.env 1000) (redeem {| gd_code := "g1abc"; gd_client_id := "C1" |})
         Sample.store1
     = {| value := Some (Called None); store := Sample.store1; trace := [] |}.
Proof.
  assert (H : JS.occurrences "|" "g1abc" = 0%nat \/ (2 <= JS.occurrences "|" "g1abc")%nat)
    by (left; reflexivity).
  split; [exact H|].
  exact (proj1 (proj2 (malformed_code_invalid (P := Sample.platform) (A := unit)
                         (Sample.env 1000) Sample.store1 "g1abc" H)) "C1").
Defined.

Lemma both_secrets_pass_schema :
  passes_schema Sample.token_request_both (<["client_secret" := "s1"]> Sample.oat_params).
Proof. repeat split; vm_compute; reflexivity. Defined.

Lemma client_secret_exactly_once_witness :
  passes_schema Sample.token_request_both (<["client_secret" := "s1"]> Sample.oat_params)
  /\ run (Sample.env 1000)
         (token_endpoint (A := unit) (P := Sample.platform) Sample.token_request_both)
         Sample.store1
     = {| value := None; store := Sample.store1;
          trace := oauth_error_events (P := Sample.platform) "oat" "invalid_request" |}.
Proof.
  split; [exact both_secrets_pass_schema|].
  exact (proj1 (client_secret_exactly_once (P := Sample.platform) (Sample.env 1000)
                  Sample.token_request_both _ Sample.store1 both_secrets_pass_schema)
           eq_refl eq_refl).
Defined.

Lemma send_grant_redirects_iff_saved_witness :
  grant_save_failure (Sample.env 1000) = None
  /\ trace (run (Sample.env 1000)
              (send_grant (A := unit) (P := Sample.platform) "U1" Sample.ctx1)
              Sample.empty_store)
     = [ db_grant_save (new_grant (Sample.env 1000) "U1" Sample.ctx1);
         redirect "https://c1/cb?code=g1%7Cabc&state=xyz" ].
Proof.
  split; [reflexivity|].
  exact (proj2 (proj1 (send_grant_redirects_iff_saved (P := Sample.platform)
                         (Sample.env 1000) "U1" Sample.ctx1 Sample.empty_store) eq_refl)).
Defined.

(** C9, on the code: a POST to the authorization endpoint without a query
    string, whose form holds a complete request that [authorize] would hand
    to the login flow, is answered [invalid_request]: [URL.parse] gives the
    empty query object, [authorize] runs on it and the form is never read;
    the answer is the same without any form. *)
Theorem form_body_never_read :
  @URL_parse_query Sample.platform (url Sample.authorize_post) = Some ∅
  /\ form Sample.authorize_post = Some (FormFields (Sample.eua_params "code"))
  /\ run (Sample.env 1000)
         (authorize (A := unit) (P := Sample.platform) (Sample.eua_params "code"))
         Sample.store1
     = {| value := None; store := Sample.store1;
          trace := [db_client_get "C1"; login Sample.ctx1] |}
  /\ run (Sample.env 1000)
         (authorize_endpoint (A := unit) (P := Sample.platform) Sample.authorize_post)
         Sample.store1
     = {| value := None; store := Sample.store1;
          trace := oauth_error_events (P := Sample.platform) "eua" "invalid_request" |}
  /\ authorize_endpoint (A := unit) (P := Sample.platform) Sample.authorize_post
     = authorize_endpoint (P := Sample.platform)
         {| url := url Sample.authorize_post; form := None;
            authorization := authorization Sample.authorize_post |}.
Proof.
  split; [reflexivity|]. split; [reflexivity|].
  split; [vm_compute; reflexivity|]. split; [vm_compute; reflexivity|].
  reflexivity.
Qed.

(** * Further properties of the handlers *)

(** ** The token endpoint as a whole *)

Section TokenEndpoint.
Context {P : Platform}.

Lemma ne_false_iff a b : JS.ne a b = false <-> a = b.
Proof.
  destruct a as [x|], b as [y|]; simpl; try (split; [done|done]).
  rewrite neq_false. split; [by intros ->|by intros [= ->]].
Qed.

(** The first half of [token_endpoint]: either the request is answered with
    [invalid_request] or [unsupported_grant_type] at once, or it passes on to
    the client lookup with the secret resolved. *)
Lemma token_endpoint_cases {A} req :
  (exists params,
     passes_schema req params /\ secret_once req params
     /\ token_endpoint (A := A) req = token_endpoint_client (resolved req params))
  \/ (exists id,
        (id = "invalid_request" \/ id = "unsupported_grant_type")
        /\ token_endpoint (A := A) req = oauth_error "oat" id).
Proof.
  unfold token_endpoint.
  destruct (form req) as [[e|params]|] eqn:Hform;
    try (right; exists "invalid_request"; split; [by left|done]).
  cbv zeta.
  destruct (existsb _ _) eqn:Hmand;
    [right; exists "invalid_request"; split; [by left|done]|].
  destruct (JS.ne _ _) eqn:Hgt;
    [right; exists "unsupported_grant_type"; split; [by right|done]|].
  apply ne_false_iff in Hgt.
  unfold resolved, secret_once, passes_schema.
  destruct (JS.truthy (authorization req)) eqn:Hh.
  - destruct (JS.truthy (params !! "client_secret")) eqn:Hs;
      [right; exists "invalid_request"; split; [by left|done]|].
    left. exists params. rewrite Hs. done.
  - destruct (JS.truthy (params !! "client_secret")) eqn:Hs; simpl;
      [|right; exists "invalid_request"; split; [by left|done]].
    left. exists params. rewrite Hs. done.
Qed.

Lemma run_unknown_error {A} env err st :
  run env (unknown_error (A := A) err) st
  = {| value := None; store := st; trace := unknown_error_events err |}.
Proof. reflexivity. Qed.

(** The second half, from the client lookup on. *)
Lemma token_endpoint_client_cases {A} env params st :
  run env (token_endpoint_client (A := A) params) st
  = emitted (db_client_get (JS.str (params !! "client_id")))
      match client_get_failure env with
      | Some err => {| value := None; store := st; trace := unknown_error_events err |}
      | None =>
          match clients st !! JS.str (params !! "client_id") with
          | None => {| value := None; store := st;
                       trace := oauth_error_events "oat" "invalid_client" |}
          | Some c =>
              if JS.ne (Some (Client.secret c)) (params !! "client_secret")
              then {| value := None; store := st;
                      trace := oauth_error_events "oat" "invalid_client" |}
              else if JS.ne (Some (Client.redirect_uri c)) (params !! "redirect_uri")
              then {| value := None; store := st;
                      trace := oauth_error_events "oat" "invalid_grant" |}
              else
                run env
                  (valid_grant (redeem_data params c)
                     (fun token =>
                        match token with
                        | None => oauth_error "oat" "invalid_grant"
                        | Some token =>
                            writeHead 200 [("Content-Type", "application/json");
                                           ("Cache-Control", "no-store")] ;;;
                            end_ (JSON (token_json token)) ;;; Stop
                        end)
                     (fun err => unknown_error err)) st
          end
      end.
Proof.
  unfold token_endpoint_client. cbn [run].
  destruct (client_get_failure env); [done|].
  destruct (clients st !! _); [|done].
  destruct (JS.ne _ _); [done|]. destruct (JS.ne _ _); done.
Qed.

Lemma in_oat_ids id :
  id = "invalid_request" \/ id = "unsupported_grant_type" \/
  id = "invalid_client" \/ id = "invalid_grant" -> In id oat_error_ids.
Proof. unfold oat_error_ids. simpl. intuition. Qed.

Lemma oat_answer_error id :
  In id oat_error_ids -> oat_answer (oauth_error_events "oat" id).
Proof. intros H. left. by exists id. Qed.

(** When the grant lookup works, the token endpoint writes exactly one
    answer: an error of its four ids, the token, or the report of a store
    error. *)
Theorem token_endpoint_answers_once env req st :
  grant_get_failure env = None ->
  oat_answer (responses (trace (run env (token_endpoint (A := unit) req) st))).
Proof.
  intros Hget.
  destruct (token_endpoint_cases (A := unit) req)
    as [(params & _ & _ & ->) | (id & Hid & ->)].
  2: { rewrite run_oauth_error. apply oat_answer_error, in_oat_ids. tauto. }
  rewrite token_endpoint_client_cases.
  destruct (client_get_failure env) as [err|]; [right; right; by exists err|].
  destruct (clients st !! _) as [c|];
    [|apply (oat_answer_error "invalid_client"), in_oat_ids; tauto].
  destruct (JS.ne _ _);
    [apply (oat_answer_error "invalid_client"), in_oat_ids; tauto|].
  destruct (JS.ne _ _);
    [apply (oat_answer_error "invalid_grant"), in_oat_ids; tauto|].
  rewrite run_valid_grant, Hget.
  destruct (JS.split _ _) as [|id [|code [|x l]]];
    try (apply (oat_answer_error "invalid_grant"), in_oat_ids; tauto).
  destruct (grants st !! id) as [g|];
    [|apply (oat_answer_error "invalid_grant"), in_oat_ids; tauto].
  destruct (_ || _ || _);
    [apply (oat_answer_error "invalid_grant"), in_oat_ids; tauto|].
  destruct (grant_delete_failure env) as [err|].
  - right; right. by exists err.
  - right; left. by exists (token_of g).
Qed.

(** A token request that does not pass the schema with the secret given
    once is answered [invalid_request] or [unsupported_grant_type] without
    any store operation. *)
Theorem token_endpoint_rejects_early env req st :
  (forall params, ~ (passes_schema req params /\ secret_once req params)) ->
  exists id,
    (id = "invalid_request" \/ id = "unsupported_grant_type")
    /\ run env (token_endpoint (A := unit) req) st
       = {| value := None; store := st; trace := oauth_error_events "oat" id |}.
Proof.
  intros Hn.
  destruct (token_endpoint_cases (A := unit) req)
    as [(params & Hp & Hs & _) | (id & Hid & ->)].
  - destruct (Hn params). done.
  - exists id. split; [done|]. apply run_oauth_error.
Qed.


Lemma resolved_other req params k :
  k <> "client_secret" -> resolved req params !! k = params !! k.
Proof.
  intros Hk. unfold resolved. destruct (JS.truthy _); [|done].
  by rewrite lookup_insert_ne.
Qed.

Lemma redeem_data_resolved req params c :
  redeem_data (resolved req params) c = redeem_data params c.
Proof. unfold redeem_data. by rewrite resolved_other. Qed.

(** A request that passes the schema with the secret given once goes on to
    the client lookup. *)
Lemma token_endpoint_passes {A} req params :
  passes_schema req params -> secret_once req params ->
  token_endpoint (A := A) req = token_endpoint_client (resolved req params).
Proof.
  intros (Hf & Hm & Hg) Hs. unfold token_endpoint, resolved, secret_once in *.
  rewrite Hf. cbv zeta. rewrite Hm, Hg. simpl JS.ne. unfold JS.neq.
  rewrite String.eqb_refl. simpl negb. cbv iota.
  destruct (JS.truthy (authorization req)), (JS.truthy (params !! "client_secret"));
    simpl in *; done.
Qed.

(** The run of a token request that meets every condition. *)
Lemma run_token_endpoint_success env req params c g st :
  passes_schema req params -> secret_once req params ->
  authenticated env st (resolved req params) c ->
  redeemable fresh st (now env) (redeem_data params c) g ->
  grant_get_failure env = None -> grant_delete_failure env = None ->
  run env (token_endpoint (A := unit) req) st
  = {| value := None;
       store := set_grants (delete (Grant.id g) (grants st)) st;
       trace := db_client_get (JS.str (params !! "client_id"))
                :: db_grant_get (nth 0 (JS.split "|" (JS.str (params !! "code"))) "")
                :: db_grant_delete (Grant.id g)
                :: token_events (token_of g) |}.
Proof.
  intros Hp Hs Ha (id & code & Hsp & Hl & Hw & Hcl & Hco) Hget Hdel.
  rewrite (token_endpoint_passes req params Hp Hs).
  rewrite (run_token_endpoint_client _ _ _ c Ha), run_valid_grant.
  rewrite redeem_data_resolved, resolved_other by done.
  cbn [gd_code gd_client_id redeem_data] in *. rewrite Hsp, Hget, Hl.
  assert (Z.ltb (Grant.time g) (now env - 60000)
          || JS.neq (Grant.client_id g) (Client.id c)
          || JS.neq (Grant.code g) code = false) as ->.
  { apply (checks_pass_iff (now env) g (redeem_data params c) code). done. }
  rewrite Hdel. reflexivity.
Qed.

(** A 200 response is only written for a request that meets every
    condition. *)
Lemma token_issued_inv env req st hs :
  In (writeHead 200 hs) (trace (run env (token_endpoint (A := unit) req) st)) ->
  exists params c g,
    passes_schema req params /\ secret_once req params
    /\ authenticated env st (resolved req params) c
    /\ redeemable fresh st (now env) (redeem_data params c) g
    /\ grant_get_failure env = None /\ grant_delete_failure env = None.
Proof.
  destruct (token_endpoint_cases (A := unit) req)
    as [(params & Hp & Hs & ->) | (id & Hid & ->)];
    [|simpl; intuition congruence].
  rewrite token_endpoint_client_cases.
  destruct (client_get_failure env) as [err|] eqn:Hcg; [simpl; intuition congruence|].
  destruct (clients st !! _) as [c|] eqn:Hc; [|simpl; intuition congruence].
  destruct (JS.ne (Some (Client.secret c)) _) eqn:Hsec; [simpl; intuition congruence|].
  destruct (JS.ne (Some (Client.redirect_uri c)) _) eqn:Hred;
    [simpl; intuition congruence|].
  rewrite run_valid_grant, redeem_data_resolved.
  destruct (JS.split _ _) as [|id [|code [|x l]]] eqn:Hsp;
    try (simpl; intuition congruence).
  destruct (grant_get_failure env) eqn:Hget; [simpl; intuition congruence|].
  destruct (grants st !! id) as [g|] eqn:Hl; [|simpl; intuition congruence].
  destruct (_ || _ || _) eqn:Hck; [simpl; intuition congruence|].
  destruct (grant_delete_failure env) eqn:Hdel; [simpl; intuition congruence|].
  intros _. exists params, c, g. do 2 (split; [done|]).
  split; [done|]. split; [|done].
  apply (redeemable_split fresh st (now env) _ g id code Hsp).
  apply checks_pass_iff in Hck. tauto.
Qed.

(** The token endpoint writes a 200 response exactly for a request that
    passes the schema, gives the secret once, names a registered client with
    that secret and redirect_uri, and presents a redeemable code, while the
    lookup and the delete of the grant work. *)
Theorem token_issued_iff env req st :
  (exists hs, In (writeHead 200 hs) (trace (run env (token_endpoint (A := unit) req) st)))
  <-> exists params c g,
        passes_schema req params /\ secret_once req params
        /\ authenticated env st (resolved req params) c
        /\ redeemable fresh st (now env) (redeem_data params c) g
        /\ grant_get_failure env = None /\ grant_delete_failure env = None.
Proof.
  split.
  - intros [hs Hin]. by apply token_issued_inv in Hin.
  - intros (params & c & g & Hp & Hs & Ha & Hr & Hget & Hdel).
    rewrite (run_token_endpoint_success env req params c g st) by done.
    eexists. cbn [trace]. do 3 right. left. reflexivity.
Qed.

(** A token request that meets every condition is answered with the token
    of the grant's user and client after one client lookup, one grant lookup
    and one delete; the grant is gone from the store and the clients are as
    before. *)
Theorem token_endpoint_success env req params c g st :
  passes_schema req params -> secret_once req params ->
  authenticated env st (resolved req params) c ->
  redeemable fresh st (now env) (redeem_data params c) g ->
  grant_get_failure env = None -> grant_delete_failure env = None ->
  let o := run env (token_endpoint (A := unit) req) st in
  responses (trace o) = token_events (token_of g)
  /\ store_operations (trace o)
     = [ db_client_get (JS.str (params !! "client_id"));
         db_grant_get (nth 0 (JS.split "|" (JS.str (params !! "code"))) "");
         db_grant_delete (Grant.id g) ]
  /\ clients (store o) = clients st
  /\ grants (store o) = delete (Grant.id g) (grants st).
Proof.
  intros Hp Hs Ha Hr Hget Hdel o. subst o.
  rewrite (run_token_endpoint_success env req params c g st) by done.
  done.
Qed.

(** An unknown client and a wrong secret are both [invalid_client], a
    redirect_uri other than the stored one is [invalid_grant]; in each case
    only the client was looked up and the store is unchanged. *)
Theorem client_authentication_failures env req params st :
  passes_schema req params -> secret_once req params ->
  client_get_failure env = None ->
  let cid := JS.str (params !! "client_id") in
  let rejected id :=
    run env (token_endpoint (A := unit) req) st
    = {| value := None; store := st;
         trace := db_client_get cid :: oauth_error_events "oat" id |} in
  (clients st !! cid = None -> rejected "invalid_client")
  /\ (forall c, clients st !! cid = Some c ->
        Some (Client.secret c) <> resolved req params !! "client_secret" ->
        rejected "invalid_client")
  /\ (forall c, clients st !! cid = Some c ->
        Some (Client.secret c) = resolved req params !! "client_secret" ->
        Some (Client.redirect_uri c) <> params !! "redirect_uri" ->
        rejected "invalid_grant").
Proof.
  intros Hp Hs Hcg cid rejected. subst cid rejected. cbv beta.
  rewrite (token_endpoint_passes req params Hp Hs).
  rewrite token_endpoint_client_cases, Hcg.
  rewrite (resolved_other _ _ "client_id"), (resolved_other _ _ "redirect_uri") by done.
  split; [|split].
  - intros ->. done.
  - intros c -> Hne.
    assert (JS.ne (Some (Client.secret c)) (resolved req params !! "client_secret") = true)
      as -> by (destruct (JS.ne _ _) eqn:E; [done|by apply ne_false_iff in E]).
    done.
  - intros c -> Heq Hne.
    assert (JS.ne (Some (Client.secret c)) (resolved req params !! "client_secret") = false)
      as -> by (by apply ne_false_iff).
    assert (JS.ne (Some (Client.redirect_uri c)) (params !! "redirect_uri") = true)
      as -> by (destruct (JS.ne _ _) eqn:E; [done|by apply ne_false_iff in E]).
    done.
Qed.

End TokenEndpoint.

Section TokenEndpointMore.
Context {P : Platform}.

Lemma slice_short n s : (String.length s <= n)%nat -> JS.slice n s = "".
Proof.
  revert s. induction n as [|n IH]; intros [|a s]; simpl; try done; try lia.
  intros H. apply IH. lia.
Qed.

Lemma mandatory_without_secret (params : Params) (secret : string) :
  existsb (fun param => negb (JS.truthy (<["client_secret" := secret]> params !! param)))
    PARAMS.oat.mandatory
  = existsb (fun param => negb (JS.truthy (params !! param))) PARAMS.oat.mandatory.
Proof. simpl. by rewrite !lookup_insert_ne. Qed.

(** A secret sent in the header behind any six characters is handled as the
    same secret sent in the form. *)
Theorem header_secret_same_as_form req (params : Params) scheme secret :
  passes_schema req params ->
  JS.truthy (params !! "client_secret") = false ->
  authorization req = Some (scheme +:+ secret) ->
  String.length scheme = 6%nat ->
  secret <> "" ->
  token_endpoint (A := unit) req
  = token_endpoint
      {| url := url req;
         form := Some (FormFields (<["client_secret" := secret]> params));
         authorization := None |}.
Proof.
  intros Hp Hs Hh Hlen Hne.
  assert (JS.truthy (authorization req) = true) as Ht.
  { rewrite Hh. destruct scheme; [done|reflexivity]. }
  rewrite (token_endpoint_passes req params Hp) by (unfold secret_once; by rewrite Ht, Hs).
  unfold resolved. rewrite Ht, Hh. simpl JS.str. rewrite <- Hlen, slice_prefix.
  symmetry. apply String.eqb_neq in Hne.
  rewrite (token_endpoint_passes _ (<["client_secret" := secret]> params)).
  - unfold resolved. reflexivity.
  - destruct Hp as (_ & Hm & Hg). unfold passes_schema. cbn [form].
    rewrite mandatory_without_secret, lookup_insert_ne by done. done.
  - unfold secret_once. cbn [authorization]. rewrite lookup_insert_eq. simpl.
    by rewrite Hne.
Qed.

(** A header of at most six characters leaves the empty string as the
    secret, which a client with a non-empty stored secret fails with
    [invalid_client]. *)
Theorem short_header_is_empty_secret env req (params : Params) c st :
  passes_schema req params ->
  JS.truthy (params !! "client_secret") = false ->
  JS.truthy (authorization req) = true ->
  (String.length (JS.str (authorization req)) <= 6)%nat ->
  client_get_failure env = None ->
  clients st !! JS.str (params !! "client_id") = Some c ->
  resolved req params !! "client_secret" = Some ""
  /\ (Client.secret c <> "" ->
      run env (token_endpoint (A := unit) req) st
      = {| value := None; store := st;
           trace := db_client_get (JS.str (params !! "client_id"))
                    :: oauth_error_events "oat" "invalid_client" |}).
Proof.
  intros Hp Hs Ht Hlen Hcg Hc.
  assert (resolved req params !! "client_secret" = Some "") as Hres.
  { unfold resolved. rewrite Ht, lookup_insert_eq, slice_short; done. }
  split; [done|]. intros Hne.
  rewrite (token_endpoint_passes req params Hp) by (unfold secret_once; by rewrite Ht, Hs).
  rewrite token_endpoint_client_cases, Hcg, resolved_other, Hc, Hres by done.
  simpl. unfold JS.neq. apply String.eqb_neq in Hne. by rewrite Hne.
Qed.

(** The same token request sent again after it was answered with a token is
    answered [invalid_grant], and changes nothing. *)
Theorem token_request_replayed env1 env2 req st hs :
  store_ok st ->
  In (writeHead 200 hs) (trace (run env1 (token_endpoint (A := unit) req) st)) ->
  client_get_failure env2 = None ->
  grant_get_failure env2 = None ->
  let o2 := run env2 (token_endpoint (A := unit) req)
              (store (run env1 (token_endpoint (A := unit) req) st)) in
  responses (trace o2) = oauth_error_events "oat" "invalid_grant"
  /\ store o2 = store (run env1 (token_endpoint (A := unit) req) st).
Proof.
  intros Hok Hin Hcg2 Hget2.
  apply token_issued_inv in Hin
    as (params & c & g & Hp & Hs & Ha & Hr & Hget & Hdel).
  rewrite (run_token_endpoint_success env1 req params c g st) by done.
  cbn [store]. set (st1 := set_grants (delete (Grant.id g) (grants st)) st).
  rewrite (token_endpoint_passes req params Hp Hs).
  destruct Ha as (_ & Hc & Hsec & Hred).
  rewrite (run_token_endpoint_client env2 st1 _ c) by done.
  rewrite run_valid_grant, redeem_data_resolved.
  destruct Hr as (id & code & Hsp & Hl & _). rewrite Hsp, Hget2.
  assert (grants st1 !! id = None) as ->.
  { unfold st1. cbn [grants set_grants]. rewrite (Hok id g Hl). apply lookup_delete_eq. }
  done.
Qed.

End TokenEndpointMore.

(** ** More on [valid_grant], [create_access_token] and [send_grant] *)

Section GrantMore.

(** [valid_grant] never touches the clients, and changes the grants only
    when it hands out a token: it then removes the grant it looked up. *)
Theorem valid_grant_store_change env data st :
  let o := run env (redeem data) st in
  clients (store o) = clients st
  /\ ((store o = st /\ forall token, value o <> Some (Called (Some token)))
      \/ exists g,
           grants st !! nth 0 (JS.split "|" (gd_code data)) "" = Some g
           /\ value o = Some (Called (Some (token_of g)))
           /\ grants (store o) = delete (Grant.id g) (grants st)).
Proof.
  cbv zeta. rewrite run_redeem.
  destruct (JS.split "|" (gd_code data)) as [|id [|code [|x l]]]; simpl;
    try (split; [done|left; done]).
  destruct (grant_get_failure env); simpl; [split; [done|left; done]|].
  destruct (grants st !! id) as [g|] eqn:Hl; simpl; [|split; [done|left; done]].
  destruct (_ || _ || _); simpl; [split; [done|left; done]|].
  destruct (grant_delete_failure env); simpl; [split; [done|left; done]|].
  split; [done|]. right. by exists g.
Qed.

Lemma occurrences_append c a b :
  JS.occurrences c (a +:+ b) = (JS.occurrences c a + JS.occurrences c b)%nat.
Proof. induction a as [|x a IH]; simpl; [done|]. rewrite IH. lia. Qed.

(** A code issued with the delimiter inside the grant id or inside the
    random part is rejected by [valid_grant] at any time, for any client and
    store. *)
Theorem delimiter_in_issued_code env1 env2 client_id st :
  (1 <= JS.occurrences "|" (fresh_id env1) + JS.occurrences "|" (random env1 128))%nat ->
  run env2 (redeem {| gd_code := issued_code env1; gd_client_id := client_id |}) st
  = {| value := Some (Called None); store := st; trace := [] |}.
Proof.
  intros H. rewrite run_redeem. cbn [gd_code].
  assert (length (JS.split "|" (issued_code env1)) <> 2%nat) as Hn.
  { rewrite split_length. unfold issued_code. rewrite !occurrences_append. simpl. lia. }
  destruct (JS.split "|" (issued_code env1)) as [|id [|code [|x l]]]; done.
Qed.

Lemma append_comma_inv u1 u2 c1 c2 :
  JS.occurrences "," u1 = 0%nat -> JS.occurrences "," u2 = 0%nat ->
  u1 +:+ "," +:+ c1 = u2 +:+ "," +:+ c2 -> u1 = u2 /\ c1 = c2.
Proof.
  revert u2. induction u1 as [|a u1 IH]; intros [|b u2]; simpl.
  - intros _ _ [= Heq]. simpl in Heq. by subst.
  - intros _ Hb [= Hc _]. subst b. simpl in Hb. done.
  - intros Ha _ [= Hc _]. subst a. simpl in Ha. done.
  - intros Ha Hb [= Hc Heq]. subst b.
    destruct (Ascii.eqb a ","); [done|].
    destruct (IH u2 Ha Hb Heq) as [-> ->]. done.
Qed.

Lemma append_associative a b c : (a +:+ b) +:+ c = a +:+ (b +:+ c).
Proof.
  induction a as [|x a IH]; [done|].
  change (String x ((a +:+ b) +:+ c) = String x (a +:+ b +:+ c)). by rewrite IH.
Qed.

(** [create_access_token] tells apart any two pairs whose user ids contain
    no comma; with a comma in a user id, two different pairs get the same
    token. *)
Theorem access_token_collisions :
  (forall u1 u2 c1 c2,
     JS.occurrences "," u1 = 0%nat -> JS.occurrences "," u2 = 0%nat ->
     create_access_token u1 c1 = create_access_token u2 c2 -> u1 = u2 /\ c1 = c2)
  /\ (forall u c1 c2,
        create_access_token (u +:+ "," +:+ c1) c2
        = create_access_token u (c1 +:+ "," +:+ c2)).
Proof.
  split.
  - intros u1 u2 c1 c2. apply append_comma_inv.
  - intros u c1 c2. unfold create_access_token.
    rewrite !append_associative. reflexivity.
Qed.

End GrantMore.

(** ** The authorization endpoint as a whole *)

Section AuthorizeMore.
Context {P : Platform}.

Lemma authorize_client_cases {A} env params st :
  run env (authorize_client (A := A) params) st
  = emitted (db_client_get (JS.str (params !! "client_id")))
      match client_get_failure env with
      | Some err => {| value := None; store := st; trace := unknown_error_events err |}
      | None =>
          match clients st !! JS.str (params !! "client_id") with
          | None => {| value := None; store := st;
                       trace := oauth_error_events "eua" "invalid_client" |}
          | Some c =>
              if JS.ne (Some (Client.redirect_uri c)) (params !! "redirect_uri")
              then {| value := None; store := st;
                      trace := oauth_error_events "eua" "redirect_uri_mismatch" |}
              else {| value := None; store := st;
                      trace := [login (login_context params c)] |}
          end
      end.
Proof.
  unfold authorize_client. cbn [run].
  destruct (client_get_failure env); [done|].
  destruct (clients st !! _); [|done].
  destruct (JS.ne _ _); done.
Qed.

(** The four ways through [authorize]. *)
Lemma authorize_cases {A} params :
  (~ eua_complete params
   /\ authorize (A := A) params = oauth_error "eua" "invalid_request")
  \/ (eua_complete params
      /\ JS.truthy_member PARAMS.eua.response_types (JS.str (params !! "response_type"))
         = false
      /\ authorize (A := A) params = oauth_error "eua" "unsupported_response_type")
  \/ (eua_complete params
      /\ JS.truthy_member PARAMS.eua.response_types (JS.str (params !! "response_type"))
         = true
      /\ JS.str (params !! "response_type") <> "code"
      /\ authorize (A := A) params
         = writeHead 501 [("Content-Type", "text/html")] ;;;
           end_ (Text not_implemented_text) ;;;
           authorize_client params)
  \/ (eua_complete params
      /\ params !! "response_type" = Some "code"
      /\ authorize (A := A) params = authorize_client params).
Proof.
  unfold authorize, eua_complete. cbv zeta.
  destruct (existsb _ _) eqn:Hm; [left; split; [congruence|done]|].
  right.
  destruct (JS.truthy_member _ _) eqn:Hmem; simpl negb; cbv iota; [|left; done].
  right.
  destruct (JS.ne _ _) eqn:Hne.
  - left. do 2 (split; [done|]). split; [|done].
    intros Hcode. apply (eua_complete_response_type params) in Hm.
    apply truthy_str in Hm as [Hs _]. rewrite Hs, Hcode in Hne. done.
  - right. apply ne_false_iff in Hne. done.
Qed.

Lemma eua_answer_error id :
  In id eua_error_ids -> eua_answer (oauth_error_events "eua" id).
Proof. intros H. left. by exists id. Qed.

Lemma authorize_client_answer env params st :
  eua_answer (responses (trace (run env (authorize_client (A := unit) params) st))).
Proof.
  rewrite authorize_client_cases.
  destruct (client_get_failure env) as [err|]; [right; right; by exists err|].
  destruct (clients st !! _) as [c|];
    [|apply (eua_answer_error "invalid_client"); simpl; tauto].
  destruct (JS.ne _ _);
    [apply (eua_answer_error "redirect_uri_mismatch"); simpl; tauto|].
  right; left. by eexists.
Qed.

(** [authorize] ends with exactly one answer (an error of its four ids, the
    hand-over to the login flow, or the report of a store error); the 501
    response is written before it exactly when the parameters are complete
    and the response type passes the enumeration check without being
    [code]. *)
Theorem authorize_answers env params st :
  exists pre ans,
    responses (trace (run env (authorize (A := unit) params) st)) = (pre ++ ans)%list
    /\ eua_answer ans
    /\ (pre = [] \/ pre = not_implemented_events)
    /\ (pre = not_implemented_events
        <-> eua_complete params
            /\ JS.truthy_member PARAMS.eua.response_types
                 (JS.str (params !! "response_type")) = true
            /\ JS.str (params !! "response_type") <> "code").
Proof.
  destruct (authorize_cases (A := unit) params)
    as [(Hn & ->) | [(Hc & Hm & ->) | [(Hc & Hm & Hne & ->) | (Hc & Hrt & ->)]]].
  - exists [], (oauth_error_events "eua" "invalid_request").
    split; [done|]. split; [apply eua_answer_error; simpl; tauto|].
    split; [by left|]. split; [done|]. intros (? & _). done.
  - exists [], (oauth_error_events "eua" "unsupported_response_type").
    split; [done|]. split; [apply eua_answer_error; simpl; tauto|].
    split; [by left|]. split; [done|]. intros (_ & ? & _). congruence.
  - exists not_implemented_events,
      (responses (trace (run env (authorize_client (A := unit) params) st))).
    split; [done|]. split; [apply authorize_client_answer|].
    split; [by right|]. done.
  - exists [], (responses (trace (run env (authorize_client (A := unit) params) st))).
    split; [done|]. split; [apply authorize_client_answer|].
    split; [by left|]. split; [done|]. intros (_ & _ & Hne).
    rewrite Hrt in Hne. done.
Qed.

(** What [authorize_endpoint] runs: [authorize] on some parameters, or the
    [invalid_request] answer. *)
Lemma authorize_endpoint_cases {A} req :
  (exists params, authorize_endpoint (A := A) req = authorize params)
  \/ authorize_endpoint (A := A) req = oauth_error "eua" "invalid_request".
Proof.
  unfold authorize_endpoint.
  destruct (URL_parse_query (url req)) as [params|]; [left; by exists params|].
  destruct (form req) as [[err|fields]|]; [by right|left; by exists fields|by right].
Qed.

Lemma login_inv env params st ctx :
  In (login ctx) (trace (run env (authorize (A := unit) params) st)) ->
  exists c,
    eua_complete params
    /\ client_get_failure env = None
    /\ clients st !! JS.str (params !! "client_id") = Some c
    /\ Some (Client.redirect_uri c) = params !! "redirect_uri"
    /\ ctx = login_context params c.
Proof.
  assert (In (login ctx) (trace (run env (authorize_client (A := unit) params) st)) ->
          exists c, client_get_failure env = None
            /\ clients st !! JS.str (params !! "client_id") = Some c
            /\ Some (Client.redirect_uri c) = params !! "redirect_uri"
            /\ ctx = login_context params c) as Hclient.
  { rewrite authorize_client_cases.
    destruct (client_get_failure env) as [err|]; [simpl; intuition congruence|].
    destruct (clients st !! _) as [c|]; [|simpl; intuition congruence].
    destruct (JS.ne _ _) eqn:Hne; [simpl; intuition congruence|].
    apply ne_false_iff in Hne. simpl. intros [?|[[= <-]|[]]]; [done|]. by exists c. }
  destruct (authorize_cases (A := unit) params)
    as [(Hn & ->) | [(Hc & Hm & ->) | [(Hc & Hm & Hne & ->) | (Hc & Hrt & ->)]]].
  - simpl. intuition congruence.
  - simpl. intuition congruence.
  - cbn [run trace emitted]. intros [?|[?|Hin]]; [done|done|].
    destruct (Hclient Hin) as (c & ?). exists c. tauto.
  - intros Hin. destruct (Hclient Hin) as (c & ?). exists c. tauto.
Qed.

(** The login flow is only invoked with the id, name and stored
    redirect_uri of a client found in the store. *)
Theorem login_only_for_registered_redirect env req st ctx :
  In (login ctx) (trace (run env (authorize_endpoint (A := unit) req) st)) ->
  exists k c,
    clients st !! k = Some c
    /\ cd_client_id ctx = Client.id c
    /\ cd_client_name ctx = Client.name c
    /\ cd_redirect_uri ctx = Client.redirect_uri c.
Proof.
  destruct (authorize_endpoint_cases (A := unit) req) as [[params ->] | ->];
    [|simpl; intuition congruence].
  intros (c & _ & _ & Hc & Hred & ->)%login_inv.
  exists (JS.str (params !! "client_id")), c. split; [done|].
  unfold login_context. cbn. rewrite <- Hred. done.
Qed.

(** The authorization endpoint leaves the store as it is and performs at
    most one store operation, a client lookup: no grant is read, saved or
    deleted. *)
Theorem authorize_reads_only_clients env req st :
  let o := run env (authorize_endpoint (A := unit) req) st in
  store o = st
  /\ (store_operations (trace o) = []
      \/ exists id, store_operations (trace o) = [db_client_get id]).
Proof.
  cbv zeta.
  assert (forall params,
            store (run env (authorize_client (A := unit) params) st) = st
            /\ exists id, store_operations
                            (trace (run env (authorize_client (A := unit) params) st))
                          = [db_client_get id]) as Hclient.
  { intros params. rewrite authorize_client_cases.
    destruct (client_get_failure env) as [err|]; [split; [done|by eexists]|].
    destruct (clients st !! _) as [c|]; [|split; [done|by eexists]].
    destruct (JS.ne _ _); split; try done; by eexists. }
  destruct (authorize_endpoint_cases (A := unit) req) as [[params ->] | ->];
    [|split; [done|by left]].
  destruct (authorize_cases (A := unit) params)
    as [(Hn & ->) | [(Hc & Hm & ->) | [(Hc & Hm & Hne & ->) | (Hc & Hrt & ->)]]].
  - split; [done|by left].
  - split; [done|by left].
  - destruct (Hclient params) as [Hs [id Hid]]. cbn [run store emitted trace].
    split; [done|]. right. exists id. exact Hid.
  - destruct (Hclient params) as [Hs [id Hid]]. split; [done|]. right. by exists id.
Qed.

(** A complete [code] request of a registered client with the stored
    redirect_uri is handed to the login flow after one client lookup, with
    the client's id and name, the redirect_uri and the [state] as given. *)
Theorem authorize_hands_over_to_login env params c st :
  eua_complete params ->
  params !! "response_type" = Some "code" ->
  client_get_failure env = None ->
  clients st !! JS.str (params !! "client_id") = Some c ->
  Some (Client.redirect_uri c) = params !! "redirect_uri" ->
  run env (authorize (A := unit) params) st
  = {| value := None; store := st;
       trace := [ db_client_get (JS.str (params !! "client_id"));
                  login {| cd_client_id := Client.id c;
                           cd_client_name := Client.name c;
                           cd_redirect_uri := Client.redirect_uri c;
                           cd_state := params !! "state" |} ] |}.
Proof.
  intros Hc Hrt Hcg Hl Hred.
  rewrite (authorize_code params Hc Hrt), authorize_client_cases, Hcg, Hl.
  assert (JS.ne (Some (Client.redirect_uri c)) (params !! "redirect_uri") = false) as ->
    by (by apply ne_false_iff).
  unfold login_context. rewrite <- Hred. reflexivity.
Qed.

(** For a complete [code] request, an unknown client is [invalid_client]
    and a redirect_uri other than the stored one is [redirect_uri_mismatch];
    the login flow is not invoked. *)
Theorem authorize_client_failures env params st :
  eua_complete params ->
  params !! "response_type" = Some "code" ->
  client_get_failure env = None ->
  let cid := JS.str (params !! "client_id") in
  let rejected id :=
    run env (authorize (A := unit) params) st
    = {| value := None; store := st;
         trace := db_client_get cid :: oauth_error_events "eua" id |} in
  (clients st !! cid = None -> rejected "invalid_client")
  /\ (forall c, clients st !! cid = Some c ->
        Some (Client.redirect_uri c) <> params !! "redirect_uri" ->
        rejected "redirect_uri_mismatch").
Proof.
  intros Hc Hrt Hcg cid rejected. subst cid rejected. cbv beta.
  rewrite (authorize_code params Hc Hrt), authorize_client_cases, Hcg.
  split.
  - intros ->. done.
  - intros c -> Hne.
    assert (JS.ne (Some (Client.redirect_uri c)) (params !! "redirect_uri") = true) as ->
      by (destruct (JS.ne _ _) eqn:E; [done|by apply ne_false_iff in E]).
    done.
Qed.

(** When the URL has a query that lacks a mandatory parameter, the request
    is [invalid_request] whatever the form holds. *)
Theorem incomplete_query_hides_form env req params st :
  URL_parse_query (url req) = Some params ->
  ~ eua_complete params ->
  run env (authorize_endpoint (A := unit) req) st
  = {| value := None; store := st; trace := oauth_error_events "eua" "invalid_request" |}.
Proof.
  intros Hq Hn. rewrite (query_string_accepted req params Hq).
  destruct (authorize_cases (A := unit) params)
    as [(_ & ->) | [(Hc & _) | [(Hc & _) | (Hc & _)]]]; done.
Qed.

(** A mandatory parameter that is absent or empty gives [invalid_request]
    on either endpoint, before any store operation. *)
Theorem missing_mandatory_parameter env (params : Params) param st :
  JS.truthy (params !! param) = false ->
  (In param PARAMS.eua.mandatory ->
   run env (authorize (A := unit) params) st
   = {| value := None; store := st;
        trace := oauth_error_events "eua" "invalid_request" |})
  /\ (In param PARAMS.oat.mandatory ->
      forall req, form req = Some (FormFields params) ->
      run env (token_endpoint (A := unit) req) st
      = {| value := None; store := st;
           trace := oauth_error_events "oat" "invalid_request" |}).
Proof.
  intros Hf. split.
  - intros Hin. unfold authorize. cbv zeta.
    assert (existsb (fun p => negb (JS.truthy (params !! p))) PARAMS.eua.mandatory = true)
      as -> by (apply existsb_exists; exists param; by rewrite Hf).
    done.
  - intros Hin req Hform. unfold token_endpoint. rewrite Hform. cbv zeta.
    assert (existsb (fun p => negb (JS.truthy (params !! p))) PARAMS.oat.mandatory = true)
      as -> by (apply existsb_exists; exists param; by rewrite Hf).
    done.
Qed.

End AuthorizeMore.

(** ** Parameters that are not read, and the routes *)

Section Unread.
Context {P : Platform}.

Lemma authorize_ignores (params : Params) k v :
  ~ In k eua_read ->
  authorize (A := unit) (<[k := v]> params) = authorize params.
Proof.
  intros Hk. unfold eua_read in Hk. simpl in Hk.
  unfold authorize, authorize_client. cbn [existsb PARAMS.eua.mandatory].
  rewrite (lookup_insert_ne params k "client_id"),
          (lookup_insert_ne params k "response_type"),
          (lookup_insert_ne params k "redirect_uri"),
          (lookup_insert_ne params k "state") by (intuition congruence).
  reflexivity.
Qed.

Lemma token_endpoint_client_ignores (params : Params) k v :
  ~ In k oat_read ->
  token_endpoint_client (A := unit) (<[k := v]> params) = token_endpoint_client params.
Proof.
  intros Hk. unfold oat_read in Hk. simpl in Hk.
  unfold token_endpoint_client.
  rewrite (lookup_insert_ne params k "client_id"),
          (lookup_insert_ne params k "client_secret"),
          (lookup_insert_ne params k "redirect_uri"),
          (lookup_insert_ne params k "code") by (intuition congruence).
  reflexivity.
Qed.

(** Parameters other than the ones the handlers read, [scope] among them,
    do not change what either endpoint does. *)
Theorem unread_parameters_ignored (params : Params) k v :
  (~ In k eua_read ->
   authorize (A := unit) (<[k := v]> params) = authorize params)
  /\ (~ In k oat_read ->
      forall req,
        token_endpoint (A := unit) (with_fields req (<[k := v]> params))
        = token_endpoint (with_fields req params)).
Proof.
  split; [apply authorize_ignores|].
  intros Hk req. pose proof Hk as Hk'. unfold oat_read in Hk'. simpl in Hk'.
  unfold token_endpoint, with_fields. cbn [form authorization existsb PARAMS.oat.mandatory].
  rewrite (lookup_insert_ne params k "grant_type"),
          (lookup_insert_ne params k "client_id"),
          (lookup_insert_ne params k "code"),
          (lookup_insert_ne params k "redirect_uri"),
          (lookup_insert_ne params k "client_secret") by (intuition congruence).
  rewrite (insert_insert_ne params "client_secret" k) by (intuition congruence).
  rewrite (token_endpoint_client_ignores params k v Hk).
  rewrite (token_endpoint_client_ignores
             (<["client_secret" := JS.slice 6 (JS.str (authorization req))]> params)
             k v Hk).
  reflexivity.
Qed.

(** A token request with every mandatory parameter and a grant type other
    than [authorization_code] is [unsupported_grant_type], before the secret
    is looked at and without any store operation. *)
Theorem unsupported_grant_type_reported env req (params : Params) st :
  form req = Some (FormFields params) ->
  existsb (fun param => negb (JS.truthy (params !! param))) PARAMS.oat.mandatory = false ->
  params !! "grant_type" <> Some "authorization_code" ->
  run env (token_endpoint (A := unit) req) st
  = {| value := None; store := st;
       trace := oauth_error_events "oat" "unsupported_grant_type" |}.
Proof.
  intros Hf Hm Hg. unfold token_endpoint. rewrite Hf. cbv zeta. rewrite Hm.
  assert (JS.ne (params !! "grant_type") (Some "authorization_code") = true) as ->
    by (destruct (JS.ne _ _) eqn:E; [done|by apply ne_false_iff in E]).
  reflexivity.
Qed.

End Unread.

(** The routes of [connector]: GET knows the authorization URL only; POST
    gives the token URL to [token_endpoint] in every configuration, and the
    authorization URL to [authorize_endpoint] exactly when it differs from
    the two other URLs. *)
Theorem connector_routes config :
  let r := connector.routes config in
  (forall u, GET r !! u
             = if decide (u = authorize_url config) then Some to_authorize_endpoint
               else None)
  /\ (forall u, POST r !! u
                = if decide (u = token_url config) then Some to_token_endpoint
                  else if decide (u = process_login_url config) then Some to_process_login
                  else if decide (u = authorize_url config) then Some to_authorize_endpoint
                  else None)
  /\ POST r !! token_url config = Some to_token_endpoint
  /\ (POST r !! authorize_url config = Some to_authorize_endpoint
      <-> authorize_url config <> token_url config
          /\ authorize_url config <> process_login_url config).
Proof.
  cbv zeta. unfold connector.routes. cbn [GET POST].
  assert (forall u, (<[token_url config := to_token_endpoint]>
                       (<[process_login_url config := to_process_login]>
                          (<[authorize_url config := to_authorize_endpoint]> ∅))
                     : gmap string Handler) !! u
                    = if decide (u = token_url config) then Some to_token_endpoint
                      else if decide (u = process_login_url config)
                           then Some to_process_login
                      else if decide (u = authorize_url config)
                           then Some to_authorize_endpoint
                      else None) as HPOST.
  { intros u. rewrite !lookup_insert, lookup_empty.
    repeat case_decide; congruence. }
  split; [|split; [exact HPOST|split]].
  - intros u. rewrite lookup_insert, lookup_empty. repeat case_decide; congruence.
  - rewrite HPOST. by case_decide.
  - rewrite HPOST. repeat case_decide; split; intros; try done; try tauto; intuition congruence.
Qed.

(** ** The further properties at the sample world *)

Lemma sample_passes_schema : passes_schema Sample.token_request Cases.params1.
Proof. repeat split; vm_compute; reflexivity. Defined.

Lemma sample_secret_once : secret_once Sample.token_request Cases.params1.
Proof. vm_compute. reflexivity. Defined.

Lemma sample_authenticated :
  authenticated (Sample.env 1000) Sample.store1
    (resolved Sample.token_request Cases.params1) Sample.C1.
Proof. repeat split; vm_compute; reflexivity. Defined.

Lemma sample_redeemable :
  redeemable fresh Sample.store1 (now (Sample.env 1000))
    (redeem_data Cases.params1 Sample.C1) Sample.g1.
Proof.
  exists "g1", "abc". split; [vm_compute; reflexivity|]. split; [vm_compute; reflexivity|].
  split; [unfold fresh; simpl; lia|]. split; reflexivity.
Defined.

Lemma sample_store_ok : store_ok Sample.store1.
Proof.
  intros k g H. unfold Sample.store1 in H. cbn [grants] in H.
  apply lookup_singleton_Some in H as [<- <-]. reflexivity.
Defined.

Lemma token_endpoint_answers_once_witness :
  grant_get_failure (Sample.env 1000) = None
  /\ oat_answer (P := Sample.platform)
       (responses (trace (run (Sample.env 1000)
                            (token_endpoint (A := unit) (P := Sample.platform)
                               Sample.token_request)
                            Sample.store1))).
Proof.
  split; [reflexivity|].
  exact (token_endpoint_answers_once (P := Sample.platform) (Sample.env 1000)
           Sample.token_request Sample.store1 eq_refl).
Defined.

Lemma no_form_never_passes :
  forall params,
    ~ (passes_schema Cases.token_request_no_form params
       /\ secret_once Cases.token_request_no_form params).
Proof. intros params [[Hf _] _]. discriminate Hf. Defined.

Lemma token_endpoint_rejects_early_witness :
  (forall params,
     ~ (passes_schema Cases.token_request_no_form params
        /\ secret_once Cases.token_request_no_form params))
  /\ exists id,
       (id = "invalid_request" \/ id = "unsupported_grant_type")
       /\ run (Sample.env 1000)
            (token_endpoint (A := unit) (P := Sample.platform) Cases.token_request_no_form)
            Sample.store1
          = {| value := None; store := Sample.store1;
               trace := oauth_error_events (P := Sample.platform) "oat" id |}.
Proof.
  split; [exact no_form_never_passes|].
  exact (token_endpoint_rejects_early (P := Sample.platform) (Sample.env 1000)
           Cases.token_request_no_form Sample.store1 no_form_never_passes).
Defined.

Lemma token_endpoint_success_witness :
  passes_schema Sample.token_request Cases.params1
  /\ secret_once Sample.token_request Cases.params1
  /\ authenticated (Sample.env 1000) Sample.store1
       (resolved Sample.token_request Cases.params1) Sample.C1
  /\ redeemable fresh Sample.store1 (now (Sample.env 1000))
       (redeem_data Cases.params1 Sample.C1) Sample.g1
  /\ responses (trace (run (Sample.env 1000)
                         (token_endpoint (A := unit) (P := Sample.platform)
                            Sample.token_request)
                         Sample.store1))
     = token_events (token_of Sample.g1).
Proof.
  split; [exact sample_passes_schema|]. split; [exact sample_secret_once|].
  split; [exact sample_authenticated|]. split; [exact sample_redeemable|].
  exact (proj1 (token_endpoint_success (P := Sample.platform) (Sample.env 1000)
                  Sample.token_request Cases.params1 Sample.C1 Sample.g1 Sample.store1
                  sample_passes_schema sample_secret_once sample_authenticated
                  sample_redeemable eq_refl eq_refl)).
Defined.

Lemma stranger_passes_schema :
  passes_schema Cases.token_request_stranger
    (<["client_id" := "C9"]> Cases.params1).
Proof. repeat split; vm_compute; reflexivity. Defined.

Lemma stranger_secret_once :
  secret_once Cases.token_request_stranger (<["client_id" := "C9"]> Cases.params1).
Proof. vm_compute. reflexivity. Defined.

Lemma client_authentication_failures_witness :
  passes_schema Cases.token_request_stranger (<["client_id" := "C9"]> Cases.params1)
  /\ secret_once Cases.token_request_stranger (<["client_id" := "C9"]> Cases.params1)
  /\ client_get_failure (Sample.env 1000) = None
  /\ run (Sample.env 1000)
       (token_endpoint (A := unit) (P := Sample.platform) Cases.token_request_stranger)
       Sample.store1
     = {| value := None; store := Sample.store1;
          trace := db_client_get "C9"
                   :: oauth_error_events (P := Sample.platform) "oat" "invalid_client" |}.
Proof.
  split; [exact stranger_passes_schema|]. split; [exact stranger_secret_once|].
  split; [reflexivity|].
  exact (proj1 (client_authentication_failures (P := Sample.platform) (Sample.env 1000)
                  Cases.token_request_stranger _ Sample.store1
                  stranger_passes_schema stranger_secret_once eq_refl) eq_refl).
Defined.

Lemma header_passes_schema : passes_schema Cases.token_request_header Sample.oat_params.
Proof. repeat split; vm_compute; reflexivity. Defined.

Lemma header_secret_same_as_form_witness :
  passes_schema Cases.token_request_header Sample.oat_params
  /\ JS.truthy (Sample.oat_params !! "client_secret") = false
  /\ authorization Cases.token_request_header = Some ("Basic " +:+ "s1")
  /\ token_endpoint (A := unit) (P := Sample.platform) Cases.token_request_header
     = token_endpoint (P := Sample.platform)
         {| url := url Cases.token_request_header;
            form := Some (FormFields (<["client_secret" := "s1"]> Sample.oat_params));
            authorization := None |}.
Proof.
  split; [exact header_passes_schema|]. split; [reflexivity|]. split; [reflexivity|].
  refine (header_secret_same_as_form (P := Sample.platform) Cases.token_request_header
            Sample.oat_params "Basic " "s1" header_passes_schema eq_refl eq_refl eq_refl _).
  discriminate.
Defined.

Lemma short_header_passes_schema :
  passes_schema Cases.token_request_short_header Sample.oat_params.
Proof. repeat split; vm_compute; reflexivity. Defined.

Lemma short_header_is_empty_secret_witness :
  passes_schema Cases.token_request_short_header Sample.oat_params
  /\ (String.length (JS.str (authorization Cases.token_request_short_header)) <= 6)%nat
  /\ resolved Cases.token_request_short_header Sample.oat_params !! "client_secret"
     = Some "".
Proof.
  split; [exact short_header_passes_schema|].
  assert (Hlen : (String.length (JS.str (authorization Cases.token_request_short_header))
                  <= 6)%nat) by (simpl; lia).
  split; [exact Hlen|].
  exact (proj1 (short_header_is_empty_secret (P := Sample.platform) (Sample.env 1000)
                  Cases.token_request_short_header Sample.oat_params Sample.C1
                  Sample.store1 short_header_passes_schema eq_refl eq_refl Hlen
                  eq_refl eq_refl)).
Defined.

Lemma sample_token_written :
  In (writeHead 200 [("Content-Type", "application/json"); ("Cache-Control", "no-store")])
     (trace (run (Sample.env 1000)
               (token_endpoint (A := unit) (P := Sample.platform) Sample.token_request)
               Sample.store1)).
Proof. vm_compute. do 3 right. left. reflexivity. Defined.

Lemma token_request_replayed_witness :
  store_ok Sample.store1
  /\ responses
       (trace (run (Sample.env 2000)
                 (token_endpoint (A := unit) (P := Sample.platform) Sample.token_request)
                 (store (run (Sample.env 1000)
                           (token_endpoint (A := unit) (P := Sample.platform)
                              Sample.token_request)
                           Sample.store1))))
     = oauth_error_events (P := Sample.platform) "oat" "invalid_grant".
Proof.
  split; [exact sample_store_ok|].
  exact (proj1 (token_request_replayed (P := Sample.platform) (Sample.env 1000)
                  (Sample.env 2000) Sample.token_request Sample.store1 _
                  sample_store_ok sample_token_written eq_refl eq_refl)).
Defined.

Lemma delimiter_in_issued_code_witness :
  (1 <= JS.occurrences "|" (fresh_id Cases.env_bar_in_id)
        + JS.occurrences "|" (random Cases.env_bar_in_id 128))%nat
  /\ run (Sample.env 1000)
       (redeem {| gd_code := issued_code Cases.env_bar_in_id; gd_client_id := "C1" |})
       Sample.store1
     = {| value := Some (Called None); store := Sample.store1; trace := [] |}.
Proof.
  assert (H : (1 <= JS.occurrences "|" (fresh_id Cases.env_bar_in_id)
                    + JS.occurrences "|" (random Cases.env_bar_in_id 128))%nat)
    by (simpl; lia).
  split; [exact H|].
  exact (delimiter_in_issued_code Cases.env_bar_in_id (Sample.env 1000) "C1"
           Sample.store1 H).
Defined.

Lemma access_token_collisions_witness :
  JS.occurrences "," "U1" = 0%nat
  /\ create_access_token "U1" "C1" = create_access_token "U1" "C1"
  /\ ("U1" = "U1" /\ "C1" = "C1").
Proof.
  split; [reflexivity|]. split; [reflexivity|].
  exact (proj1 access_token_collisions "U1" "U1" "C1" "C1" eq_refl eq_refl eq_refl).
Defined.

Lemma issued_code_redeems_witness :
  now (Sample.env 2000) <= now (Sample.env 1000) + 60000
  /\ value (run (Sample.env 2000)
              (redeem {| gd_code := "g1" +:+ "|" +:+ "abc"; gd_client_id := "C1" |})
              (store (run (Sample.env 1000)
                        (send_grant (A := unit) (P := Sample.platform) "U1" Sample.ctx1)
                        Sample.empty_store)))
     = Some (Called (Some {| access_token := create_access_token "U1" "C1" |})).
Proof.
  assert (H : now (Sample.env 2000) <= now (Sample.env 1000) + 60000) by (simpl; lia).
  split; [exact H|].
  exact (issued_code_redeems (P := Sample.platform) (Sample.env 1000) (Sample.env 2000)
           "U1" Sample.ctx1 Sample.empty_store eq_refl eq_refl eq_refl eq_refl eq_refl H).
Defined.

Lemma sample_login_invoked :
  In (login Sample.ctx1)
     (trace (run (Sample.env 1000)
               (authorize_endpoint (A := unit) (P := Sample.platform)
                  Cases.authorize_get)
               Sample.store1)).
Proof. vm_compute. right. left. reflexivity. Defined.

Lemma login_only_for_registered_redirect_witness :
  In (login Sample.ctx1)
     (trace (run (Sample.env 1000)
               (authorize_endpoint (A := unit) (P := Sample.platform)
                  Cases.authorize_get)
               Sample.store1))
  /\ exists k c,
    clients Sample.store1 !! k = Some c
    /\ cd_client_id Sample.ctx1 = Client.id c
    /\ cd_client_name Sample.ctx1 = Client.name c
    /\ cd_redirect_uri Sample.ctx1 = Client.redirect_uri c.
Proof.
  split; [exact sample_login_invoked|].
  exact (login_only_for_registered_redirect (P := Sample.platform) (Sample.env 1000)
           Cases.authorize_get Sample.store1 Sample.ctx1 sample_login_invoked).
Defined.

Lemma sample_eua_complete : eua_complete (Sample.eua_params "code").
Proof. vm_compute. reflexivity. Defined.

Lemma authorize_hands_over_to_login_witness :
  eua_complete (Sample.eua_params "code")
  /\ run (Sample.env 1000)
       (authorize (A := unit) (P := Sample.platform) (Sample.eua_params "code"))
       Sample.store1
     = {| value := None; store := Sample.store1;
          trace := [ db_client_get "C1"; login Sample.ctx1 ] |}.
Proof.
  split; [exact sample_eua_complete|].
  exact (authorize_hands_over_to_login (P := Sample.platform) (Sample.env 1000)
           (Sample.eua_params "code") Sample.C1 Sample.store1
           sample_eua_complete eq_refl eq_refl eq_refl eq_refl).
Defined.

Lemma authorize_client_failures_witness :
  eua_complete (Sample.eua_params "code")
  /\ clients Cases.no_clients !! "C1" = None
  /\ run (Sample.env 1000)
       (authorize (A := unit) (P := Sample.platform) (Sample.eua_params "code"))
       Cases.no_clients
     = {| value := None; store := Cases.no_clients;
          trace := db_client_get "C1"
                   :: oauth_error_events (P := Sample.platform) "eua" "invalid_client" |}.
Proof.
  split; [exact sample_eua_complete|]. split; [reflexivity|].
  exact (proj1 (authorize_client_failures (P := Sample.platform) (Sample.env 1000)
                  (Sample.eua_params "code") Cases.no_clients
                  sample_eua_complete eq_refl eq_refl) eq_refl).
Defined.

Lemma mixed_query :
  @URL_parse_query Sample.platform (url Cases.authorize_mixed)
  = Some (list_to_map [("client_id", "C1"); ("response_type", "code")]).
Proof. vm_compute. reflexivity. Defined.

Lemma mixed_incomplete :
  ~ eua_complete (list_to_map [("client_id", "C1"); ("response_type", "code")]).
Proof. unfold eua_complete. vm_compute. discriminate. Defined.

Lemma incomplete_query_hides_form_witness :
  form Cases.authorize_mixed = Some (FormFields (Sample.eua_params "code"))
  /\ eua_complete (Sample.eua_params "code")
  /\ run (Sample.env 1000)
       (authorize_endpoint (A := unit) (P := Sample.platform) Cases.authorize_mixed)
       Sample.store1
     = {| value := None; store := Sample.store1;
          trace := oauth_error_events (P := Sample.platform) "eua" "invalid_request" |}.
Proof.
  split; [reflexivity|]. split; [exact sample_eua_complete|].
  exact (incomplete_query_hides_form (P := Sample.platform) (Sample.env 1000)
           Cases.authorize_mixed _ Sample.store1 mixed_query mixed_incomplete).
Defined.

Lemma missing_mandatory_parameter_witness :
  JS.truthy ((∅ : Params) !! "client_id") = false
  /\ run (Sample.env 1000) (authorize (A := unit) (P := Sample.platform) ∅) Sample.store1
     = {| value := None; store := Sample.store1;
          trace := oauth_error_events (P := Sample.platform) "eua" "invalid_request" |}.
Proof.
  split; [reflexivity|].
  refine (proj1 (missing_mandatory_parameter (P := Sample.platform) (Sample.env 1000)
                   ∅ "client_id" Sample.store1 eq_refl) _).
  simpl. tauto.
Defined.

Lemma scope_is_unread : ~ In "scope" eua_read.
Proof. unfold eua_read. simpl. intuition discriminate. Defined.

Lemma unread_parameters_ignored_witness :
  authorize (A := unit) (P := Sample.platform)
    (<["scope" := "everything"]> (Sample.eua_params "code"))
  = authorize (P := Sample.platform) (Sample.eua_params "code").
Proof.
  exact (proj1 (unread_parameters_ignored (P := Sample.platform)
                  (Sample.eua_params "code") "scope" "everything") scope_is_unread).
Defined.

Lemma password_grant_type :
  (<["grant_type" := "password"]> Cases.params1 : Params) !! "grant_type"
  <> Some "authorization_code".
Proof. vm_compute. discriminate. Defined.

Lemma unsupported_grant_type_reported_witness :
  form Cases.token_request_password
  = Some (FormFields (<["grant_type" := "password"]> Cases.params1))
  /\ run (Sample.env 1000)
       (token_endpoint (A := unit) (P := Sample.platform) Cases.token_request_password)
       Sample.store1
     = {| value := None; store := Sample.store1;
          trace := oauth_error_events (P := Sample.platform) "oat"
                     "unsupported_grant_type" |}.
Proof.
  split; [reflexivity|].
  exact (unsupported_grant_type_reported (P := Sample.platform) (Sample.env 1000)
           Cases.token_request_password _ Sample.store1 eq_refl eq_refl
           password_grant_type).
Defined.
